(** * Privacy dashboard: tab-data aggregation and the webkit bridge

    A shallow embedding of the macOS/iOS integration module of the privacy
    dashboard (the module that starts with [let channel = null]): the
    module-level variables become one record, every exported function becomes
    a function in a state-and-exception monad over that record, and promises
    are cells of an explicit promise store. *)

From Stdlib Require Import ZArith.
From stdpp Require Import gmap strings list fin_maps.

Local Open Scope string_scope.

(** ** JavaScript values *)

(** The payloads that cross the bridge are JSON-like.  Objects are finite maps
    from property names to values; numbers are kept integral, they are only
    ever carried around. *)
#[local] Unset Elimination Schemes.
Inductive value : Type :=
  | VUndefined
  | VNull
  | VBool (b : bool)
  | VNum (n : Z)
  | VStr (s : string)
  | VArr (xs : list value)
  | VObj (o : gmap string value).
#[local] Set Elimination Schemes.

(** [typeof v]. *)
Definition typeof (v : value) : string :=
  match v with
  | VUndefined => "undefined"
  | VNull => "object"
  | VBool _ => "boolean"
  | VNum _ => "number"
  | VStr _ => "string"
  | VArr _ => "object"
  | VObj _ => "object"
  end.

(** Truthiness, as tested by [if (v)], [v ? a : b] and [!v]. *)
Definition truthy (v : value) : bool :=
  match v with
  | VUndefined | VNull => false
  | VBool b => b
  | VNum n => negb (n =? 0)%Z
  | VStr s => negb (String.eqb s "")
  | VArr _ | VObj _ => true
  end.

(** [v === false]. *)
Definition strict_eq_false (v : value) : bool :=
  match v with
  | VBool false => true
  | _ => false
  end.

(** [Object.assign(target, ...sources)]: later sources win.  The union of
    [gmap] is left-biased, hence the source goes on the left. *)
Definition Object_assign (target : gmap string value)
    (sources : list (gmap string value)) : gmap string value :=
  foldl (λ acc src, src ∪ acc) target sources.

(** An optional module variable read as a JavaScript value. *)
Definition of_option {A} (inj : A → value) (o : option A) : value :=
  match o with
  | Some a => inj a
  | None => VUndefined
  end.

(** ** What the module imports *)

(** The generated schema parsers and the request-details helpers live in
    other modules.  [safeParse] is rendered as a partial function: [Some data]
    for [{success: true, data}], [None] for [{success: false, error}].  The
    result types follow the schema types: the three object schemas yield
    objects; the locale schema yields an object whose [locale] is a string,
    of which only that string is kept, the only part the module reads. *)
Class Imports := {
  requestDataSchema : value → option (gmap string value);
  protectionsStatusSchema : value → option (gmap string value);
  localeSettingsSchema : value → option string;
  cookiePromptManagementStatusSchema : value → option (gmap string value);
  toggleReportScreenSchema : value → option value;
  (** host name of the tab url, and the classification of the raw requests *)
  domainOf : value → value;
  createRequestDetails : gmap string value → value
}.

(** ** Module state *)

(** The field variables [trackerBlockingData] ... [locale].  A variable that
    is only ever [undefined] or an object is an [option]; a variable that
    receives an unvalidated host value is a [value]. *)
Record Fields := mkFields {
  trackerBlockingData : option (gmap string value);
  permissionsData : value;
  certificateData : value;
  upgradedHttps : value;
  protections : option (gmap string value);
  isPendingUpdates : value;
  parentEntity : value;
  cookiePromptManagementStatus : gmap string value;
  locale : option string
}.

Inductive exn : Type :=
  | Error (msg : string)
  | TypeError (msg : string).

Inductive pstate : Type :=
  | Pending
  | Fulfilled (v : value)
  | Rejected (e : exn).

Inductive logEntry : Type :=
  | console_error (msg : string)
  | console_error_obj      (* console.error(parsed.error) *)
  | console_log_obj        (* console.log(requestData.error) *)
  | console_warn (msg : string).

(** [window]: the webkit message handlers the host installed (if any), the
    messages posted to them so far, the reply slot of the toggle-report
    request (holding the promise its closure resolves) and the test flag. *)
Record Window := mkWindow {
  messageHandlers : option (gset string);
  posted : list (string * value);
  onGetToggleReportOptionsResponse : option nat;
  __playwright : bool
}.

(** The whole module state.  [promises] is the promise store, a promise being
    its index; [resolveCalls] records every call of a [resolve] function, in
    order, whether or not it settled anything.  [channel] is [None] while the
    variable is [null], and otherwise the messages sent to the model. *)
Record World := mkWorld {
  fields : Fields;
  getBackgroundTabDataPromises : list nat;
  promises : list pstate;
  resolveCalls : list (nat * value);
  channel : option (list string);
  console : list logEntry;
  window : Window
}.

Definition with_fields (f : Fields) (w : World) : World :=
  mkWorld f (getBackgroundTabDataPromises w) (promises w) (resolveCalls w)
          (channel w) (console w) (window w).

Definition with_window (win : Window) (w : World) : World :=
  mkWorld (fields w) (getBackgroundTabDataPromises w) (promises w)
          (resolveCalls w) (channel w) (console w) win.

Definition set_trackerBlockingData (t : option (gmap string value)) (f : Fields) : Fields :=
  mkFields t (permissionsData f) (certificateData f) (upgradedHttps f)
           (protections f) (isPendingUpdates f) (parentEntity f)
           (cookiePromptManagementStatus f) (locale f).

Definition set_permissionsData (v : value) (f : Fields) : Fields :=
  mkFields (trackerBlockingData f) v (certificateData f) (upgradedHttps f)
           (protections f) (isPendingUpdates f) (parentEntity f)
           (cookiePromptManagementStatus f) (locale f).

Definition set_certificateData (v : value) (f : Fields) : Fields :=
  mkFields (trackerBlockingData f) (permissionsData f) v (upgradedHttps f)
           (protections f) (isPendingUpdates f) (parentEntity f)
           (cookiePromptManagementStatus f) (locale f).

Definition set_upgradedHttps (v : value) (f : Fields) : Fields :=
  mkFields (trackerBlockingData f) (permissionsData f) (certificateData f) v
           (protections f) (isPendingUpdates f) (parentEntity f)
           (cookiePromptManagementStatus f) (locale f).

Definition set_protections (p : option (gmap string value)) (f : Fields) : Fields :=
  mkFields (trackerBlockingData f) (permissionsData f) (certificateData f)
           (upgradedHttps f) p (isPendingUpdates f) (parentEntity f)
           (cookiePromptManagementStatus f) (locale f).

Definition set_isPendingUpdates (v : value) (f : Fields) : Fields :=
  mkFields (trackerBlockingData f) (permissionsData f) (certificateData f)
           (upgradedHttps f) (protections f) v (parentEntity f)
           (cookiePromptManagementStatus f) (locale f).

Definition set_parentEntity (v : value) (f : Fields) : Fields :=
  mkFields (trackerBlockingData f) (permissionsData f) (certificateData f)
           (upgradedHttps f) (protections f) (isPendingUpdates f) v
           (cookiePromptManagementStatus f) (locale f).

Definition set_cookiePromptManagementStatus (c : gmap string value) (f : Fields) : Fields :=
  mkFields (trackerBlockingData f) (permissionsData f) (certificateData f)
           (upgradedHttps f) (protections f) (isPendingUpdates f)
           (parentEntity f) c (locale f).

Definition set_locale (l : option string) (f : Fields) : Fields :=
  mkFields (trackerBlockingData f) (permissionsData f) (certificateData f)
           (upgradedHttps f) (protections f) (isPendingUpdates f)
           (parentEntity f) (cookiePromptManagementStatus f) l.

(** The state of the module right after it is loaded. *)
Definition initialFields : Fields :=
  mkFields None VUndefined VUndefined VUndefined None VUndefined VUndefined ∅ None.

Definition initialWorld (win : Window) : World :=
  mkWorld initialFields [] [] [] None [] win.

(** ** The monad: state plus exceptions *)

Inductive outcome (A : Type) : Type :=
  | Return (a : A)
  | Throw (e : exn).
Arguments Return {A} a.
Arguments Throw {A} e.

Definition M (A : Type) : Type := World → outcome A * World.

Definition ret {A} (a : A) : M A := λ w, (Return a, w).

Definition bind {A B} (m : M A) (k : A → M B) : M B :=
  λ w, match m w with
       | (Return a, w') => k a w'
       | (Throw e, w') => (Throw e, w')
       end.

Definition throw {A} (e : exn) : M A := λ w, (Throw e, w).
Definition get : M World := λ w, (Return w, w).
Definition modify (g : World → World) : M unit := λ w, (Return tt, g w).

Declare Scope js_scope.
Delimit Scope js_scope with js.
Notation "x <- m ;; k" := (bind m (λ x, k))
  (at level 100, m at next level, right associativity) : js_scope.
Notation "m ;;; k" := (bind m (λ _, k))
  (at level 100, right associativity) : js_scope.
Local Open Scope js_scope.

(** The state an action leaves behind, and what it returned. *)
Definition exec {A} (m : M A) (w : World) : World := snd (m w).
Definition result {A} (m : M A) (w : World) : outcome A := fst (m w).

(** [arr.forEach(f)] *)
Fixpoint forEach {A} (f : A → M unit) (l : list A) : M unit :=
  match l with
  | [] => ret tt
  | x :: l' => f x ;;; forEach f l'
  end.

(** ** Promises *)

(** Settling is first-come: a promise that is no longer pending ignores it. *)
Definition settle (pid : nat) (s : pstate) (ps : list pstate) : list pstate :=
  match ps !! pid with
  | Some Pending => <[pid := s]> ps
  | _ => ps
  end.

(** Calling the [resolve] function of promise [pid] with [v]. *)
Definition resolve (pid : nat) (v : value) : M unit :=
  modify (λ w, mkWorld (fields w) (getBackgroundTabDataPromises w)
                       (settle pid (Fulfilled v) (promises w))
                       (resolveCalls w ++ [(pid, v)])
                       (channel w) (console w) (window w)).

(** [new Promise((resolve) => executor)]: the executor runs at once; an
    exception thrown by it rejects the promise and is not rethrown. *)
Definition newPromise (executor : nat → M unit) : M nat :=
  λ w, let pid := length (promises w) in
       let w1 := mkWorld (fields w) (getBackgroundTabDataPromises w)
                         (promises w ++ [Pending]) (resolveCalls w)
                         (channel w) (console w) (window w) in
       match executor pid w1 with
       | (Return _, w2) => (Return pid, w2)
       | (Throw e, w2) =>
           (Return pid,
            mkWorld (fields w2) (getBackgroundTabDataPromises w2)
                    (settle pid (Rejected e) (promises w2)) (resolveCalls w2)
                    (channel w2) (console w2) (window w2))
       end.

(** ** Small effects *)

Definition log (es : list logEntry) : M unit :=
  modify (λ w, mkWorld (fields w) (getBackgroundTabDataPromises w) (promises w)
                       (resolveCalls w) (channel w) (console w ++ es) (window w)).

(** [channel?.send(msg)] *)
Definition channel_send (msg : string) : M unit :=
  modify (λ w, mkWorld (fields w) (getBackgroundTabDataPromises w) (promises w)
                       (resolveCalls w) ((λ sent, (sent ++ [msg])%list) <$> channel w)
                       (console w) (window w)).

(** [backgroundMessage(backgroundModel)] *)
Definition backgroundMessage : M unit :=
  modify (λ w, mkWorld (fields w) (getBackgroundTabDataPromises w) (promises w)
                       (resolveCalls w) (Some []) (console w) (window w)).

Definition update_fields (g : Fields → Fields) : M unit :=
  modify (λ w, with_fields (g (fields w)) w).

(** [invariant(cond, msg)] of tiny-invariant *)
Definition invariant (cond : bool) (msg : string) : M unit :=
  if cond then ret tt else throw (Error ("Invariant failed: " ++ msg)).

(** [v.name]: reading a property of [undefined] or [null] throws a
    [TypeError] (the message is engine wording, here that of V8, which names
    the value that was read from); a primitive or an array has no own
    property of the names used here. *)
Definition getProp (v : value) (name : string) : M value :=
  match v with
  | VUndefined =>
      throw (TypeError ("Cannot read properties of undefined (reading '" ++ name ++ "')"))
  | VNull =>
      throw (TypeError ("Cannot read properties of null (reading '" ++ name ++ "')"))
  | VObj o => ret (default VUndefined (o !! name))
  | _ => ret VUndefined
  end.

(** [window.webkit.messageHandlers.name.postMessage(params)] *)
Definition postMessage (name : string) (params : value) : M unit :=
  w <- get;;
  match messageHandlers (window w) with
  | Some hs =>
      if bool_decide (name ∈ hs)
      then modify (λ w, with_window
                          (mkWindow (messageHandlers (window w))
                                    (posted (window w) ++ [(name, params)])
                                    (onGetToggleReportOptionsResponse (window w))
                                    (__playwright (window w))) w)
      else throw (TypeError ("Cannot read properties of undefined (reading 'postMessage')"))
  | None => throw (TypeError ("Cannot read properties of undefined (reading '" ++ name ++ "')"))
  end.

(** [window.webkit?.messageHandlers] and [window.webkit?.messageHandlers?.name]
    as conditions. *)
Definition has_messageHandlers (w : World) : bool :=
  bool_decide (is_Some (messageHandlers (window w))).

Definition has_handler (name : string) (w : World) : bool :=
  match messageHandlers (window w) with
  | Some hs => bool_decide (name ∈ hs)
  | None => false
  end.

Section Integration.
Context {I : Imports}.

(** Modelled from the spec: [createTabData] of [./utils/request-details.mjs]
    is not part of the sources at hand.  The spec describes its result as the
    structured record of the request classification of the page: the domain,
    the request list and the protection state at capture time, built from the
    validated request data plus the known [upgradedHttps] and [protections],
    and recording [upgradedHttps] in a field of that name. *)
Definition createTabData (tabUrl upgraded : value)
    (prot rawRequestData : gmap string value) : gmap string value :=
  <["domain" := domainOf tabUrl]>
  (<["upgradedHttps" := upgraded]>
  (<["protections" := VObj prot]>
  (<["requestDetails" := createRequestDetails rawRequestData]> ∅))).

(** [combineSources()]: the content of the snapshot at the moment it is
    built.  The [tab] object is a new one on every call; what is stored
    under [cookiePromptManagementStatus] is the module's own object, not a
    copy of it, and what a holder of the snapshot reads there afterwards is
    given by [seen_later] below. *)
Definition combineSources (f : Fields) : gmap string value :=
  {[ "tab" := VObj (Object_assign ∅
       [ default ∅ (trackerBlockingData f);
         <["isPendingUpdates" := isPendingUpdates f]>
         (<["parentEntity" := parentEntity f]>
         (<["cookiePromptManagementStatus" := VObj (cookiePromptManagementStatus f)]>
         (<["platformLimitations" := VBool true]>
         (<["locale" := of_option VStr (locale f)]> ∅))));
         if truthy (permissionsData f)
         then {[ "permissions" := permissionsData f ]} else ∅;
         if truthy (certificateData f)
         then {[ "certificate" := certificateData f ]} else ∅ ]) ]}.

(** The four [typeof] tests of [resolveInitialRender]. *)
Definition isUpgradedHttpsSet (f : Fields) : bool :=
  String.eqb (typeof (upgradedHttps f)) "boolean".
Definition isIsProtectedSet (f : Fields) : bool :=
  negb (String.eqb (typeof (of_option VObj (protections f))) "undefined").
Definition isTrackerBlockingDataSet (f : Fields) : bool :=
  String.eqb (typeof (of_option VObj (trackerBlockingData f))) "object".
Definition isLocaleSet (f : Fields) : bool :=
  String.eqb (typeof (of_option VStr (locale f))) "string".

Definition resolveInitialRender : M unit :=
  w <- get;;
  if negb (isLocaleSet (fields w)) || negb (isUpgradedHttpsSet (fields w))
     || negb (isIsProtectedSet (fields w)) || negb (isTrackerBlockingDataSet (fields w))
  then ret tt
  else
    forEach (λ resolve_pid,
               w <- get;; resolve resolve_pid (VObj (combineSources (fields w))))
            (getBackgroundTabDataPromises w);;;
    channel_send "updateTabData".

Definition onChangeRequestData (tabUrl rawRequestData : value) : M unit :=
  let requestData := requestDataSchema rawRequestData in
  w <- get;;
  match protections (fields w) with
  | None => throw (Error "protections status not set")
  | Some prot =>
      match requestData with
      | None =>
          log [console_error "could not parse incoming request data from `onChangeRequestData`";
               console_log_obj]
      | Some data =>
          update_fields (set_trackerBlockingData
            (Some (createTabData tabUrl (upgradedHttps (fields w)) prot data)));;;
          resolveInitialRender
      end
  end.

Definition onChangeProtectionStatus (protectionsStatus : value) : M unit :=
  match protectionsStatusSchema protectionsStatus with
  | None =>
      log [console_error "could not parse incoming protection status from onChangeProtectionStatus";
           console_error_obj]
  | Some data =>
      update_fields (set_protections (Some data));;;
      resolveInitialRender
  end.

Definition onChangeLocale (payload : value) : M unit :=
  match localeSettingsSchema payload with
  | None =>
      log [console_error "could not parse incoming data from onChangeLocale";
           console_error_obj]
  | Some l =>
      update_fields (set_locale (Some l));;;
      channel_send "updateTabData"
  end.

Definition onChangeConsentManaged (payload : value) : M unit :=
  match cookiePromptManagementStatusSchema payload with
  | None =>
      log [console_error "could not parse incoming data from onChangeConsentManaged";
           console_error_obj]
  | Some data =>
      update_fields (λ f, set_cookiePromptManagementStatus
                            (Object_assign (cookiePromptManagementStatus f) [data]) f);;;
      channel_send "updateTabData"
  end.

(** The handlers that [setupShared] installs on [window]. *)
Definition onChangeAllowedPermissions (data : value) : M unit :=
  update_fields (set_permissionsData data);;;
  channel_send "updateTabData".

Definition onChangeUpgradedHttps (data : value) : M unit :=
  update_fields (set_upgradedHttps data);;;
  update_fields (λ f, match trackerBlockingData f with
                      | Some t => set_trackerBlockingData
                                    (Some (<["upgradedHttps" := upgradedHttps f]> t)) f
                      | None => f
                      end);;;
  resolveInitialRender.

Definition onChangeCertificateData (data : value) : M unit :=
  v <- getProp data "secCertificateViewModels";;
  update_fields (set_certificateData v);;;
  channel_send "updateTabData".

Definition onIsPendingUpdates (data : value) : M unit :=
  update_fields (set_isPendingUpdates data);;;
  channel_send "updateTabData".

Definition onChangeParentEntity (data : value) : M unit :=
  update_fields (set_parentEntity data);;;
  channel_send "updateTabData".

(** [getBackgroundTabData()]: the promise it returns. *)
Definition getBackgroundTabData : M nat :=
  newPromise (λ resolve_pid,
    w <- get;;
    match trackerBlockingData (fields w) with
    | Some _ => resolve resolve_pid (VObj (combineSources (fields w)))
    | None =>
        modify (λ w, mkWorld (fields w)
                             (getBackgroundTabDataPromises w ++ [resolve_pid])
                             (promises w) (resolveCalls w) (channel w)
                             (console w) (window w))
    end).

(** ** Outgoing messages *)

Definition privacyDashboardSetProtection (params : value) : M unit :=
  w <- get;;
  invariant (has_handler "privacyDashboardSetProtection" w)
            "webkit.messageHandlers.privacyDashboardSetProtection required";;;
  postMessage "privacyDashboardSetProtection" params.

Definition privacyDashboardSetPermission (params : value) : M unit :=
  w <- get;;
  invariant (has_messageHandlers w) "webkit.messageHandlers required";;;
  postMessage "privacyDashboardSetPermission" params.

(** The reply handler stored by the request below: the closure
    [(data) => { resolve(data); Reflect.deleteProperty(window, ...) }],
    represented in the window by the promise it resolves. *)
Definition set_onGetToggleReportOptionsResponse (slot : option nat) : M unit :=
  modify (λ w, with_window
                 (mkWindow (messageHandlers (window w)) (posted (window w))
                           slot (__playwright (window w))) w).

Definition privacyDashboardGetToggleReportOptions : M nat :=
  newPromise (λ resolve_pid,
    w <- get;;
    invariant (has_messageHandlers w) "webkit.messageHandlers required";;;
    invariant (has_handler "privacyDashboardGetToggleReportOptions" w)
              "privacyDashboardGetToggleReportOptions required";;;
    postMessage "privacyDashboardGetToggleReportOptions" (VObj ∅);;;
    set_onGetToggleReportOptionsResponse (Some resolve_pid)).

(** The host replying: it evaluates
    [window.onGetToggleReportOptionsResponse(data)]. *)
Definition onGetToggleReportOptionsResponse_call (data : value) : M unit :=
  w <- get;;
  match onGetToggleReportOptionsResponse (window w) with
  | None => throw (TypeError "window.onGetToggleReportOptionsResponse is not a function")
  | Some resolve_pid =>
      resolve resolve_pid data;;;
      set_onGetToggleReportOptionsResponse None
  end.

Definition privacyDashboardSendToggleReport : M unit :=
  w <- get;;
  invariant (has_messageHandlers w) "webkit.messageHandlers required";;;
  invariant (has_handler "privacyDashboardSendToggleReport" w)
            "privacyDashboardSendToggleReport required";;;
  postMessage "privacyDashboardSendToggleReport" (VObj ∅).

Definition privacyDashboardRejectToggleReport : M unit :=
  w <- get;;
  invariant (has_messageHandlers w) "webkit.messageHandlers required";;;
  invariant (has_handler "privacyDashboardRejectToggleReport" w)
            "privacyDashboardRejectToggleReport required";;;
  postMessage "privacyDashboardRejectToggleReport" (VObj ∅).

Definition privacyDashboardSeeWhatIsSent : M unit :=
  w <- get;;
  invariant (has_messageHandlers w) "webkit.messageHandlers required";;;
  invariant (has_handler "privacyDashboardSeeWhatIsSent" w)
            "privacyDashboardSeeWhatIsSent required";;;
  postMessage "privacyDashboardSeeWhatIsSent" (VObj ∅).

Definition privacyDashboardClose (args : value) : M unit :=
  w <- get;;
  invariant (has_messageHandlers w) "webkit.messageHandlers required";;;
  postMessage "privacyDashboardClose" args.

Definition privacyDashboardOpenSettings (target : value) : M unit :=
  w <- get;;
  invariant (has_messageHandlers w) "webkit.messageHandlers required";;;
  postMessage "privacyDashboardOpenSettings" (VObj {[ "target" := target ]}).

Definition privacyDashboardSubmitBrokenSiteReport (category description : value) : M unit :=
  w <- get;;
  invariant (has_messageHandlers w) "webkit.messageHandlers required";;;
  postMessage "privacyDashboardSubmitBrokenSiteReport"
    (VObj (<["category" := category]> {[ "description" := description ]})).

(** The message classes of [common.js] that [fetch] tells apart, with the
    properties it reads; [OtherMessage] is any other object. *)
Record listItem := mkListItem {
  list_name : string;
  list_value : value
}.

Inductive Message : Type :=
  | CloseMessage (eventOrigin : value)
  | SubmitBrokenSiteReportMessage (category description : value)
  | SetListsMessage (lists : list listItem) (eventOrigin : value)
  | OpenSettingsMessages (target : value)
  | UpdatePermissionMessage (id val : value)
  | FetchToggleReportOptions
  | SendToggleBreakageReport
  | RejectToggleBreakageReport
  | SeeWhatIsSent
  | OtherMessage.

(** What the [async] function [fetch] does before it returns or first
    suspends: either it is done, with the value its promise is fulfilled
    with, or it awaits the toggle-report promise.  An exception stands for the
    rejection of the promise [fetch] returns. *)
Inductive fetchResult : Type :=
  | FetchReturn (v : value)
  | FetchAwait (pid : nat).

(** The body of the [for ... of message.lists] loop. *)
Definition fetch_listItem (eventOrigin : value) (listItem : listItem) : M unit :=
  if negb (String.eqb (list_name listItem) "allowlisted")
  then
    w <- get;;
    if negb (__playwright (window w))
    then log [console_warn "only `allowlisted` is currently supported on macos"]
    else ret tt
  else
    let isProtected := strict_eq_false (list_value listItem) in
    privacyDashboardSetProtection
      (VObj (<["eventOrigin" := eventOrigin]> {[ "isProtected" := VBool isProtected ]})).

Definition fetch (message : Message) : M fetchResult :=
  match message with
  | CloseMessage eventOrigin =>
      privacyDashboardClose (VObj {[ "eventOrigin" := eventOrigin ]});;;
      ret (FetchReturn VUndefined)
  | SubmitBrokenSiteReportMessage category description =>
      privacyDashboardSubmitBrokenSiteReport category description;;;
      ret (FetchReturn VUndefined)
  | SetListsMessage lists eventOrigin =>
      forEach (fetch_listItem eventOrigin) lists;;;
      ret (FetchReturn VUndefined)
  | OpenSettingsMessages target =>
      privacyDashboardOpenSettings target;;;
      ret (FetchReturn VUndefined)
  | UpdatePermissionMessage id val =>
      privacyDashboardSetPermission
        (VObj (<["permission" := id]> {[ "value" := val ]}));;;
      ret (FetchReturn VUndefined)
  | FetchToggleReportOptions =>
      pid <- privacyDashboardGetToggleReportOptions;;
      ret (FetchAwait pid)
  | SendToggleBreakageReport =>
      privacyDashboardSendToggleReport;;;
      ret (FetchReturn VUndefined)
  | RejectToggleBreakageReport =>
      privacyDashboardRejectToggleReport;;;
      ret (FetchReturn VUndefined)
  | SeeWhatIsSent =>
      privacyDashboardSeeWhatIsSent;;;
      ret (FetchReturn VUndefined)
  | OtherMessage => ret (FetchReturn VUndefined)
  end.

(** The rest of the [FetchToggleReportOptions] branch, run when the awaited
    promise is fulfilled with [data]: [toggleReportScreenSchema.parse(data)]
    returns the parsed value or throws. *)
Definition fetch_resume (data : value) : M value :=
  match toggleReportScreenSchema data with
  | Some parsed => ret parsed
  | None => throw (Error "ZodError")
  end.

(** ** Deliveries from the host *)

(** One call of an incoming [window.*] method by the host. *)
Inductive Delivery : Type :=
  | RequestData (tabUrl rawRequestData : value)
  | ProtectionStatus (payload : value)
  | Locale (payload : value)
  | ConsentManaged (payload : value)
  | AllowedPermissions (data : value)
  | UpgradedHttps (data : value)
  | CertificateData (data : value)
  | IsPendingUpdates (data : value)
  | ParentEntity (data : value).

Definition deliver (d : Delivery) : M unit :=
  match d with
  | RequestData tabUrl raw => onChangeRequestData tabUrl raw
  | ProtectionStatus payload => onChangeProtectionStatus payload
  | Locale payload => onChangeLocale payload
  | ConsentManaged payload => onChangeConsentManaged payload
  | AllowedPermissions data => onChangeAllowedPermissions data
  | UpgradedHttps data => onChangeUpgradedHttps data
  | CertificateData data => onChangeCertificateData data
  | IsPendingUpdates data => onIsPendingUpdates data
  | ParentEntity data => onChangeParentEntity data
  end.

(** The host evaluates its calls one after the other; a call that throws
    reports the exception to the host and the next call finds the state as
    the failed one left it. *)
Definition deliver_all (ds : list Delivery) (w : World) : World :=
  foldl (λ w d, exec (deliver d) w) w ds.

End Integration.

(** ** A concrete environment *)

(** Sample parsers, for evaluating the module on concrete inputs: the object
    schemas accept exactly the objects, the locale schema accepts an object
    whose [locale] is a string. *)
Definition parse_object (v : value) : option (gmap string value) :=
  match v with
  | VObj o => Some o
  | _ => None
  end.

Definition parse_locale (v : value) : option string :=
  match v with
  | VObj o => match o !! "locale" with
              | Some (VStr s) => Some s
              | _ => None
              end
  | _ => None
  end.

Definition sampleImports : Imports := {|
  requestDataSchema := parse_object;
  protectionsStatusSchema := parse_object;
  localeSettingsSchema := parse_locale;
  cookiePromptManagementStatusSchema := parse_object;
  toggleReportScreenSchema := λ v, VObj <$> parse_object v;
  domainOf := λ url, url;
  createRequestDetails := VObj
|}.

Definition sampleHandlers : gset string :=
  {[ "privacyDashboardSetProtection"; "privacyDashboardGetToggleReportOptions" ]}.

Definition sampleWindow : Window := mkWindow (Some sampleHandlers) [] None false.

Definition sampleUrl : value := VStr "https://example.com".
Definition sampleRequests : gmap string value := {[ "requests" := VArr [] ]}.
Definition sampleRequestData : value := VObj sampleRequests.
Definition sampleProtectionsStatus : gmap string value :=
  <["unprotectedTemporary" := VBool false]>
  (<["enabledFeatures" := VArr [VStr "contentBlocking"]]>
  (<["denylisted" := VBool false]>
  {[ "allowlisted" := VBool false ]})).
Definition sampleProtections : value := VObj sampleProtectionsStatus.
Definition sampleLocale : value := VObj {[ "locale" := VStr "en" ]}.

(** ** Vocabulary of the statements *)

Local Open Scope list_scope.

(** The gate of [resolveInitialRender], as one test. *)
Definition ready (f : Fields) : bool :=
  isLocaleSet f && isUpgradedHttpsSet f && isIsProtectedSet f
  && isTrackerBlockingDataSet f.

(** Calling every queued resolver with the same value [v]. *)
Definition settle_all (q : list nat) (v : value) (ps : list pstate) : list pstate :=
  foldl (λ ps pid, settle pid (Fulfilled v) ps) ps q.

(** The state after the resolving branch of [resolveInitialRender]. *)
Definition flushed (w : World) : World :=
  let v := VObj (combineSources (fields w)) in
  mkWorld (fields w) (getBackgroundTabDataPromises w)
          (settle_all (getBackgroundTabDataPromises w) v (promises w))
          (resolveCalls w ++ map (λ pid, (pid, v)) (getBackgroundTabDataPromises w))
          ((λ sent, (sent ++ ["updateTabData"])%list) <$> channel w)
          (console w) (window w).

(** The [tab] object of a snapshot. *)
Definition snapshot_tab (snapshot : gmap string value) : gmap string value :=
  match snapshot !! "tab" with
  | Some (VObj tab) => tab
  | _ => ∅
  end.

(** The state after [es] has been written to the console. *)
Definition logged (es : list logEntry) (w : World) : World :=
  mkWorld (fields w) (getBackgroundTabDataPromises w) (promises w)
          (resolveCalls w) (channel w) (console w ++ es) (window w).

(** A delivery to one of the four validating entry points whose payload the
    schema rejects. *)
Definition rejected {I : Imports} (d : Delivery) : bool :=
  match d with
  | RequestData _ raw => bool_decide (requestDataSchema raw = None)
  | ProtectionStatus payload => bool_decide (protectionsStatusSchema payload = None)
  | Locale payload => bool_decide (localeSettingsSchema payload = None)
  | ConsentManaged payload =>
      bool_decide (cookiePromptManagementStatusSchema payload = None)
  | _ => false
  end.

Definition is_requestData (d : Delivery) : bool :=
  match d with
  | RequestData _ _ => true
  | _ => false
  end.

(** Two deliveries to the same entry point. *)
Definition same_entry (d1 d2 : Delivery) : bool :=
  match d1, d2 with
  | RequestData _ _, RequestData _ _
  | ProtectionStatus _, ProtectionStatus _
  | Locale _, Locale _
  | ConsentManaged _, ConsentManaged _
  | AllowedPermissions _, AllowedPermissions _
  | UpgradedHttps _, UpgradedHttps _
  | CertificateData _, CertificateData _
  | IsPendingUpdates _, IsPendingUpdates _
  | ParentEntity _, ParentEntity _ => true
  | _, _ => false
  end.

Definition is_consentManaged (d : Delivery) : bool :=
  match d with
  | ConsentManaged _ => true
  | _ => false
  end.

(** A delivery whose payload its entry point takes: the schema accepts it,
    or, for the certificate data, the property can be read from it. *)
Definition accepted {I : Imports} (d : Delivery) : bool :=
  match d with
  | RequestData _ raw => bool_decide (is_Some (requestDataSchema raw))
  | ProtectionStatus payload => bool_decide (is_Some (protectionsStatusSchema payload))
  | Locale payload => bool_decide (is_Some (localeSettingsSchema payload))
  | ConsentManaged payload =>
      bool_decide (is_Some (cookiePromptManagementStatusSchema payload))
  | CertificateData VUndefined | CertificateData VNull => false
  | _ => true
  end.

(** The outbound protection-toggle message with a given polarity. *)
Definition SetProtection (eventOrigin : value) (isProtected : bool) : string * value :=
  ("privacyDashboardSetProtection",
   VObj (<["eventOrigin" := eventOrigin]> {[ "isProtected" := VBool isProtected ]})).

(** What a list entry is expected to be translated to: an [allowlisted]
    entry with the boolean [v] gives one message of the opposite polarity,
    any other list name gives none. *)
Definition translated (eventOrigin : value) (item : listItem) : list (string * value) :=
  if decide (list_name item = "allowlisted")
  then match list_value item with
       | VBool v => [SetProtection eventOrigin (negb v)]
       | _ => []
       end
  else [].

Definition boolean_valued (item : listItem) : Prop :=
  ∃ v, list_value item = VBool v.

(** A delivery that gets as far as calling [resolveInitialRender]. *)
Definition triggers {I : Imports} (d : Delivery) (w : World) : bool :=
  match d with
  | RequestData _ raw =>
      bool_decide (is_Some (protections (fields w)))
      && bool_decide (is_Some (requestDataSchema raw))
  | ProtectionStatus payload => bool_decide (is_Some (protectionsStatusSchema payload))
  | UpgradedHttps _ => true
  | _ => false
  end.

(** The four fields of the gate, and orderings of their updates. *)
Inductive required : Type :=
  | RequiredRequestData
  | RequiredProtections
  | RequiredUpgradedHttps
  | RequiredLocale.

Global Instance required_eq_dec : EqDecision required.
Proof. solve_decision. Defined.

Definition all_required : list required :=
  [RequiredRequestData; RequiredProtections; RequiredUpgradedHttps; RequiredLocale].

(** [before a b order]: [a] occurs in [order], and [b] occurs after it and
    not before. *)
Fixpoint before (a b : required) (order : list required) : bool :=
  match order with
  | [] => false
  | r :: rest =>
      if decide (r = a) then bool_decide (b ∈ rest)
      else if decide (r = b) then false
      else before a b rest
  end.

(** The delivery that updates a required field, from given payloads. *)
Definition required_delivery (tabUrl raw payload localePayload : value) (b : bool)
    (r : required) : Delivery :=
  match r with
  | RequiredRequestData => RequestData tabUrl raw
  | RequiredProtections => ProtectionStatus payload
  | RequiredUpgradedHttps => UpgradedHttps (VBool b)
  | RequiredLocale => Locale localePayload
  end.

(** The fields after the update of one required field with a payload that
    parses to [data], [prot], [b] or [l]: what the four entry points do to
    the fields, as one function (see [required_delivery_fields]). *)
Definition required_step {I : Imports} (tabUrl : value) (b : bool)
    (data prot : gmap string value) (l : string)
    (r : required) (f : Fields) : Fields :=
  match r with
  | RequiredRequestData =>
      match protections f with
      | Some p => set_trackerBlockingData
                    (Some (createTabData tabUrl (upgradedHttps f) p data)) f
      | None => f
      end
  | RequiredProtections => set_protections (Some prot) f
  | RequiredUpgradedHttps =>
      set_trackerBlockingData
        ((λ t, <["upgradedHttps" := VBool b]> t) <$> trackerBlockingData f)
        (set_upgradedHttps (VBool b) f)
  | RequiredLocale => set_locale (Some l) f
  end.


(** ** Sample runs *)

(** A window in which the host has installed nothing. *)
Definition bareWindow : Window := mkWindow None [] None false.

(** The sample world after the protections and the request data. *)
Definition sampleTracked : World :=
  deliver_all (I := sampleImports)
    [ProtectionStatus sampleProtections; RequestData sampleUrl sampleRequestData]
    (initialWorld sampleWindow).

(** The four required updates of the sample environment. *)
Definition sampleRequired : required → Delivery :=
  required_delivery sampleUrl sampleRequestData sampleProtections sampleLocale false.

(** The sample world once the gate has opened, with one resolver queued
    before the first update. *)
Definition sampleReady : World :=
  deliver_all (I := sampleImports)
    [ProtectionStatus sampleProtections; RequestData sampleUrl sampleRequestData;
     Locale sampleLocale; UpgradedHttps (VBool false)]
    (exec getBackgroundTabData (initialWorld sampleWindow)).

(** ** The rest of the bridge *)

Section Bridge.
Context {I : Imports}.

(** Evaluating the callee [window.webkit.messageHandlers.name.postMessage]:
    it throws when the handlers or the handler are missing, before any
    argument of the call is evaluated. *)
Definition postMessage_callee (name : string) : M unit :=
  w <- get;;
  match messageHandlers (window w) with
  | Some hs =>
      if bool_decide (name ∈ hs) then ret tt
      else throw (TypeError ("Cannot read properties of undefined (reading 'postMessage')"))
  | None => throw (TypeError ("Cannot read properties of undefined (reading '" ++ name ++ "')")%string)
  end.

Definition privacyDashboardOpenUrlInNewTab (args : value) : M unit :=
  w <- get;;
  invariant (has_messageHandlers w) "webkit.messageHandlers required";;;
  postMessage_callee "privacyDashboardOpenUrlInNewTab";;;
  url <- getProp args "url";;
  postMessage "privacyDashboardOpenUrlInNewTab" (VObj {[ "url" := url ]}).

(** The listener that [setupShared] hands to [setupGlobalOpenerListener]. *)
Definition globalOpenerListener (href : value) : M unit :=
  privacyDashboardOpenUrlInNewTab (VObj {[ "url" := href ]}).

(** [privacyDashboardSetSize(payload)]; [isIOS] is what [isIOS()] of the
    environment check returns. *)
Definition privacyDashboardSetSize (isIOS : bool) (payload : value) : M unit :=
  if negb isIOS
  then
    w <- get;;
    invariant (has_messageHandlers w) "webkit.messageHandlers required";;;
    postMessage "privacyDashboardSetSize" payload
  else ret tt.

(** The callback that [setup] hands to [setupMutationObserver]. *)
Definition mutationObserverCallback (isIOS : bool) (height : value) : M unit :=
  privacyDashboardSetSize isIOS (VObj {[ "height" := height ]}).

(** [firstRenderComplete()]; [height] is what [getContentHeight()] returns. *)
Definition firstRenderComplete (isIOS : bool) (height : value) : M unit :=
  if String.eqb (typeof height) "number"
  then privacyDashboardSetSize isIOS (VObj {[ "height" := height ]})
  else ret tt.

(** Everything that can happen to the module: a delivery from the host, a
    view asking for the tab data, an outgoing message, a reply of the host to
    the toggle-report request, the model attaching itself, and the two size
    reports. *)
Inductive Action : Type :=
  | ADeliver (d : Delivery)
  | AGetBackgroundTabData
  | AFetch (message : Message)
  | AReply (data : value)
  | ABackgroundMessage
  | AOpenUrl (href : value)
  | ASetSize (isIOS : bool) (height : value)
  | AFirstRender (isIOS : bool) (height : value).

Definition act (a : Action) (w : World) : World :=
  match a with
  | ADeliver d => exec (deliver d) w
  | AGetBackgroundTabData => exec getBackgroundTabData w
  | AFetch message => exec (fetch message) w
  | AReply data => exec (onGetToggleReportOptionsResponse_call data) w
  | ABackgroundMessage => exec backgroundMessage w
  | AOpenUrl href => exec (globalOpenerListener href) w
  | ASetSize isIOS height => exec (mutationObserverCallback isIOS height) w
  | AFirstRender isIOS height => exec (firstRenderComplete isIOS height) w
  end.

Definition act_all (acts : list Action) (w : World) : World :=
  foldl (λ w a, act a w) w acts.

(** What a delivery does to the fields, as a function of the fields alone
    (see [deliver_fields]). *)
Definition fields_after (d : Delivery) (f : Fields) : Fields :=
  match d with
  | RequestData tabUrl raw =>
      match protections f, requestDataSchema raw with
      | Some prot, Some data =>
          set_trackerBlockingData
            (Some (createTabData tabUrl (upgradedHttps f) prot data)) f
      | _, _ => f
      end
  | ProtectionStatus payload =>
      match protectionsStatusSchema payload with
      | Some prot => set_protections (Some prot) f
      | None => f
      end
  | Locale payload =>
      match localeSettingsSchema payload with
      | Some l => set_locale (Some l) f
      | None => f
      end
  | ConsentManaged payload =>
      match cookiePromptManagementStatusSchema payload with
      | Some data =>
          set_cookiePromptManagementStatus (data ∪ cookiePromptManagementStatus f) f
      | None => f
      end
  | AllowedPermissions data => set_permissionsData data f
  | UpgradedHttps data =>
      set_trackerBlockingData
        ((λ t, <["upgradedHttps" := data]> t) <$> trackerBlockingData f)
        (set_upgradedHttps data f)
  | CertificateData data =>
      match data with
      | VUndefined | VNull => f
      | VObj o => set_certificateData (default VUndefined (o !! "secCertificateViewModels")) f
      | _ => set_certificateData VUndefined f
      end
  | IsPendingUpdates data => set_isPendingUpdates data f
  | ParentEntity data => set_parentEntity data f
  end.

End Bridge.

(** The webkit handler that [fetch] posts a message to, for the messages
    that go to exactly one. *)
Definition handler_of (message : Message) : option string :=
  match message with
  | CloseMessage _ => Some "privacyDashboardClose"
  | SubmitBrokenSiteReportMessage _ _ => Some "privacyDashboardSubmitBrokenSiteReport"
  | OpenSettingsMessages _ => Some "privacyDashboardOpenSettings"
  | UpdatePermissionMessage _ _ => Some "privacyDashboardSetPermission"
  | FetchToggleReportOptions => Some "privacyDashboardGetToggleReportOptions"
  | SendToggleBreakageReport => Some "privacyDashboardSendToggleReport"
  | RejectToggleBreakageReport => Some "privacyDashboardRejectToggleReport"
  | SeeWhatIsSent => Some "privacyDashboardSeeWhatIsSent"
  | SetListsMessage _ _ | OtherMessage => None
  end.

(** The payload posted for such a message. *)
Definition payload_of (message : Message) : value :=
  match message with
  | CloseMessage eventOrigin => VObj {[ "eventOrigin" := eventOrigin ]}
  | SubmitBrokenSiteReportMessage category description =>
      VObj (<["category" := category]> {[ "description" := description ]})
  | OpenSettingsMessages target => VObj {[ "target" := target ]}
  | UpdatePermissionMessage id val =>
      VObj (<["permission" := id]> {[ "value" := val ]})
  | _ => VObj ∅
  end.

(** The messages whose sender checks for its own handler by name. *)
Definition names_its_handler (message : Message) : bool :=
  match message with
  | FetchToggleReportOptions | SendToggleBreakageReport
  | RejectToggleBreakageReport | SeeWhatIsSent => true
  | _ => false
  end.

(** The exception a sender ends with when the handler [name] is missing:
    the first [invariant] fails if there are no handlers at all; otherwise
    the second one does if the sender has one, and reading [postMessage] of
    the missing handler does if it has not. *)
Definition transport_error (name : string) (named : bool) (w : World) : exn :=
  if has_messageHandlers w
  then if named
       then Error ("Invariant failed: " ++ name ++ " required")%string
       else TypeError "Cannot read properties of undefined (reading 'postMessage')"
  else Error "Invariant failed: webkit.messageHandlers required".

(** The state after [params] has been posted to the handler [name]. *)
Definition post (name : string) (params : value) (w : World) : World :=
  with_window (mkWindow (messageHandlers (window w))
                        (posted (window w) ++ [(name, params)])
                        (onGetToggleReportOptionsResponse (window w))
                        (__playwright (window w))) w.

Definition is_allowlisted (item : listItem) : bool :=
  String.eqb (list_name item) "allowlisted".

(** [w'] differs from [w] by console lines and posted messages at most. *)
Definition only_posts_and_logs (w w' : World) : Prop :=
  ∃ es ms,
    w' = mkWorld (fields w) (getBackgroundTabDataPromises w) (promises w)
           (resolveCalls w) (channel w) (console w ++ es)
           (mkWindow (messageHandlers (window w)) (posted (window w) ++ ms)
                     (onGetToggleReportOptionsResponse (window w))
                     (__playwright (window w))).

(** The actions that cannot shut an open gate: all but an [upgradedHttps]
    delivery of something that is not a boolean. *)
Definition keeps_gate (a : Action) : bool :=
  match a with
  | ADeliver (UpgradedHttps data) => String.eqb (typeof data) "boolean"
  | _ => true
  end.

(** Whether a delivery tells the channel: the three entry points that end in
    [resolveInitialRender] do when they get that far and the gate is open,
    the others when they take their payload. *)
Definition notifies {I : Imports} (d : Delivery) (w : World) : bool :=
  match d with
  | RequestData _ _ | ProtectionStatus _ | UpgradedHttps _ =>
      triggers d w && ready (fields (exec (deliver d) w))
  | _ => accepted d
  end.

(** The messages sent to the channel so far; none while it is not attached. *)
Definition sent (w : World) : list string := default [] (channel w).

(** The two deliveries whose values [onChangeRequestData] reads. *)
Definition feeds_requestData (d : Delivery) : bool :=
  match d with
  | ProtectionStatus _ | UpgradedHttps _ => true
  | _ => false
  end.

(** Two deliveries to different entry points, neither of which reads what
    the other writes. *)
Definition independent (d1 d2 : Delivery) : bool :=
  negb (same_entry d1 d2)
  && negb (is_requestData d1 && feeds_requestData d2)
  && negb (is_requestData d2 && feeds_requestData d1).

(** The property names that [combineSources] lays over the tracker data. *)
Definition overlay_names : list string :=
  ["isPendingUpdates"; "parentEntity"; "cookiePromptManagementStatus";
   "platformLimitations"; "locale"; "permissions"; "certificate"].

(** ** Sharing between the snapshots and the module *)






(** * Properties *)

Section Properties.
Context {I : Imports}.

(** ** The monad and the promise store *)

Lemma settle_lookup_ne pid pid' s ps :
  pid ≠ pid' → settle pid s ps !! pid' = ps !! pid'.
Proof.
  intros Hne. unfold settle.
  destruct (ps !! pid) as [[]|]; auto using list_lookup_insert_ne.
Qed.

Lemma settle_lookup_pending pid s ps :
  ps !! pid = Some Pending → settle pid s ps !! pid = Some s.
Proof.
  intros Hp. unfold settle. rewrite Hp.
  apply list_lookup_insert_eq. by eapply lookup_lt_Some.
Qed.

Lemma settle_lookup_settled pid pid' s s' ps :
  ps !! pid' = Some s' → s' ≠ Pending → settle pid s ps !! pid' = Some s'.
Proof.
  intros Hs Hne. destruct (decide (pid = pid')) as [->|Hd].
  - unfold settle. rewrite Hs. by destruct s'.
  - by rewrite settle_lookup_ne.
Qed.

Lemma settle_all_settled q v pid s ps :
  ps !! pid = Some s → s ≠ Pending → settle_all q v ps !! pid = Some s.
Proof.
  revert ps. induction q as [|x q IH]; intros ps Hs Hne; [done|].
  apply IH; [|done]. by apply settle_lookup_settled.
Qed.

Lemma settle_all_not_queued q v pid ps :
  pid ∉ q → settle_all q v ps !! pid = ps !! pid.
Proof.
  revert ps. induction q as [|x q IH]; intros ps Hq; [done|].
  apply not_elem_of_cons in Hq as [Hx Hq]. simpl.
  rewrite IH by done. by apply settle_lookup_ne.
Qed.

Lemma settle_all_queued q v pid ps :
  pid ∈ q → ps !! pid = Some Pending →
  settle_all q v ps !! pid = Some (Fulfilled v).
Proof.
  revert ps. induction q as [|x q IH]; intros ps Hq Hp.
  - by apply elem_of_nil in Hq.
  - simpl. destruct (decide (x = pid)) as [->|Hne].
    + apply settle_all_settled; [|done]. by apply settle_lookup_pending.
    + apply IH.
      * apply elem_of_cons in Hq as [->|]; done.
      * by rewrite settle_lookup_ne.
Qed.

Lemma forEach_combine_spec (q : list nat) (w : World) :
  forEach (λ pid, w' <- get;; resolve pid (VObj (combineSources (fields w')))) q w
  = (Return tt,
     mkWorld (fields w) (getBackgroundTabDataPromises w)
             (settle_all q (VObj (combineSources (fields w))) (promises w))
             (resolveCalls w
                ++ map (λ pid, (pid, VObj (combineSources (fields w)))) q)
             (channel w) (console w) (window w)).
Proof.
  revert w. induction q as [|pid q IH]; intros w.
  - destruct w. simpl. unfold ret. by rewrite app_nil_r.
  - change (forEach ?f (pid :: q)) with (bind (f pid) (λ _, forEach f q)).
    unfold bind at 1. cbv beta.
    change ((w' <- get;; resolve pid (VObj (combineSources (fields w')))) w)
      with (Return tt,
            mkWorld (fields w) (getBackgroundTabDataPromises w)
              (settle pid (Fulfilled (VObj (combineSources (fields w)))) (promises w))
              (resolveCalls w ++ [(pid, VObj (combineSources (fields w)))])
              (channel w) (console w) (window w)).
    cbv iota. rewrite IH. simpl. by rewrite <- app_assoc.
Qed.

(** [resolveInitialRender] either does nothing or flushes the queue. *)
Lemma resolveInitialRender_spec (w : World) :
  resolveInitialRender w = (Return tt, if ready (fields w) then flushed w else w).
Proof.
  unfold resolveInitialRender, ready, bind at 1, get.
  destruct (isLocaleSet (fields w)); simpl; [|done].
  destruct (isUpgradedHttpsSet (fields w)); simpl; [|done].
  destruct (isIsProtectedSet (fields w)); simpl; [|done].
  destruct (isTrackerBlockingDataSet (fields w)); simpl; [|done].
  unfold bind. rewrite forEach_combine_spec. done.
Qed.

Lemma ready_spec (f : Fields) :
  ready f = true ↔
  is_Some (locale f) ∧ (∃ b, upgradedHttps f = VBool b)
  ∧ is_Some (protections f) ∧ is_Some (trackerBlockingData f).
Proof.
  unfold ready, isLocaleSet, isUpgradedHttpsSet, isIsProtectedSet,
    isTrackerBlockingDataSet.
  destruct (locale f), (upgradedHttps f), (protections f), (trackerBlockingData f);
    simpl; split; try done; try (intros (?&[? ?]&?&?); done);
    try (intros ([? ?]&[? ?]&[? ?]&[? ?]); done); eauto 10.
Qed.

(** ** The entry points in closed form *)

Lemma onChangeRequestData_unset tabUrl raw w :
  protections (fields w) = None →
  onChangeRequestData tabUrl raw w = (Throw (Error "protections status not set"), w).
Proof. intros Hp. unfold onChangeRequestData, bind, get. by rewrite Hp. Qed.

Lemma onChangeRequestData_invalid tabUrl raw prot w :
  protections (fields w) = Some prot → requestDataSchema raw = None →
  onChangeRequestData tabUrl raw w
  = (Return tt,
     logged [console_error "could not parse incoming request data from `onChangeRequestData`";
             console_log_obj] w).
Proof. intros Hp Hr. unfold onChangeRequestData, bind, get. by rewrite Hp, Hr. Qed.

Lemma onChangeRequestData_valid tabUrl raw prot data w :
  protections (fields w) = Some prot → requestDataSchema raw = Some data →
  onChangeRequestData tabUrl raw w
  = resolveInitialRender
      (with_fields (set_trackerBlockingData
         (Some (createTabData tabUrl (upgradedHttps (fields w)) prot data))
         (fields w)) w).
Proof. intros Hp Hr. unfold onChangeRequestData, bind, get. by rewrite Hp, Hr. Qed.

Lemma onChangeProtectionStatus_valid payload prot w :
  protectionsStatusSchema payload = Some prot →
  onChangeProtectionStatus payload w
  = resolveInitialRender (with_fields (set_protections (Some prot) (fields w)) w).
Proof. intros Hp. unfold onChangeProtectionStatus. by rewrite Hp. Qed.

Lemma onChangeLocale_valid payload l w :
  localeSettingsSchema payload = Some l →
  onChangeLocale payload w
  = channel_send "updateTabData" (with_fields (set_locale (Some l) (fields w)) w).
Proof. intros Hl. unfold onChangeLocale. by rewrite Hl. Qed.

Lemma onChangeConsentManaged_valid payload data w :
  cookiePromptManagementStatusSchema payload = Some data →
  onChangeConsentManaged payload w
  = channel_send "updateTabData"
      (with_fields (set_cookiePromptManagementStatus
         (data ∪ cookiePromptManagementStatus (fields w)) (fields w)) w).
Proof. intros Hd. unfold onChangeConsentManaged. by rewrite Hd. Qed.

Lemma onChangeUpgradedHttps_spec data w :
  onChangeUpgradedHttps data w
  = resolveInitialRender
      (with_fields
         (set_trackerBlockingData
            ((λ t, <["upgradedHttps" := data]> t) <$> trackerBlockingData (fields w))
            (set_upgradedHttps data (fields w))) w).
Proof.
  unfold onChangeUpgradedHttps, bind, update_fields, modify. simpl.
  destruct w as [[[t|] ? ? ? ? ? ? ? ?] ? ? ? ? ? ?]; done.
Qed.

(** ** Reading the snapshot *)

(** None of the overlay properties of [combineSources] is called
    [upgradedHttps]: the snapshot shows the one of [trackerBlockingData]. *)
Lemma combineSources_upgradedHttps (f : Fields) :
  snapshot_tab (combineSources f) !! "upgradedHttps"
  = default ∅ (trackerBlockingData f) !! "upgradedHttps".
Proof.
  unfold snapshot_tab, combineSources, Object_assign. rewrite lookup_singleton_eq.
  simpl. rewrite map_union_empty.
  rewrite lookup_union_r, lookup_union_r, lookup_union_r; [done|..].
  - repeat (rewrite lookup_insert_ne by done). apply lookup_empty.
  - destruct (truthy (permissionsData f)); [by rewrite lookup_singleton_ne|done].
  - destruct (truthy (certificateData f)); [by rewrite lookup_singleton_ne|done].
Qed.

Lemma combineSources_cookiePromptManagementStatus (f : Fields) :
  snapshot_tab (combineSources f) !! "cookiePromptManagementStatus"
  = Some (VObj (cookiePromptManagementStatus f)).
Proof.
  unfold snapshot_tab, combineSources, Object_assign. rewrite lookup_singleton_eq.
  simpl. rewrite map_union_empty.
  rewrite lookup_union_r, lookup_union_r.
  - erewrite lookup_union_Some_l; [done|].
    by repeat (rewrite lookup_insert_ne by done; []); rewrite lookup_insert_eq.
  - destruct (truthy (permissionsData f)); [by rewrite lookup_singleton_ne|done].
  - destruct (truthy (certificateData f)); [by rewrite lookup_singleton_ne|done].
Qed.

(** ** Precondition of the request data update *)

(** C3. Whatever the payload, [onChangeRequestData] called while
    [protections] is unset throws "protections status not set", and the state
    it leaves is the state it found: no field, in particular not
    [trackerBlockingData], has changed. *)
Theorem requestData_before_protections_throws (tabUrl raw : value) (w : World) :
  protections (fields w) = None →
  result (onChangeRequestData tabUrl raw) w = Throw (Error "protections status not set")
  ∧ exec (onChangeRequestData tabUrl raw) w = w
  ∧ trackerBlockingData (fields (exec (onChangeRequestData tabUrl raw) w))
    = trackerBlockingData (fields w).
Proof.
  intros Hp. unfold result, exec.
  by rewrite (onChangeRequestData_unset _ _ _ Hp).
Qed.

(** ** Rejected payloads *)

(** C4, as amended. A payload that its schema rejects is logged and dropped:
    [onChangeProtectionStatus], [onChangeLocale] and [onChangeConsentManaged]
    always, and [onChangeRequestData] when [protections] is set, return
    normally, write an error message and the parse error to the console and
    change nothing else. *)
Theorem rejected_payload_dropped (d : Delivery) (w : World) :
  rejected d = true →
  (is_requestData d = true → is_Some (protections (fields w))) →
  ∃ msg e,
    deliver d w = (Return tt, logged [console_error msg; e] w)
    ∧ fields (exec (deliver d) w) = fields w.
Proof.
  intros Hrej Hpre. unfold exec.
  destruct d as [tabUrl raw|payload|payload|payload| | | | |]; simpl in *;
    try discriminate; apply bool_decide_eq_true in Hrej.
  - destruct Hpre as [prot Hprot]; [done|].
    rewrite (onChangeRequestData_invalid _ _ _ _ Hprot Hrej). eauto.
  - unfold onChangeProtectionStatus. rewrite Hrej. unfold log, modify. eauto.
  - unfold onChangeLocale. rewrite Hrej. unfold log, modify. eauto.
  - unfold onChangeConsentManaged. rewrite Hrej. unfold log, modify. eauto.
Qed.

(** ** The upgradedHttps update *)

Lemma resolveInitialRender_fields (w : World) :
  result resolveInitialRender w = Return tt
  ∧ fields (exec resolveInitialRender w) = fields w.
Proof.
  unfold result, exec. rewrite resolveInitialRender_spec.
  by destruct (ready (fields w)).
Qed.

(** C10. When [trackerBlockingData] is set, [onChangeUpgradedHttps] writes
    the new value into its [upgradedHttps] property and into the variable
    [upgradedHttps]; every other property of [trackerBlockingData] and every
    other field keeps its value, and the next snapshot shows the new value. *)
Theorem upgradedHttps_patches_trackerBlockingData
    (data : value) (t : gmap string value) (w : World) :
  trackerBlockingData (fields w) = Some t →
  let w' := exec (onChangeUpgradedHttps data) w in
  result (onChangeUpgradedHttps data) w = Return tt
  ∧ (∃ t', trackerBlockingData (fields w') = Some t'
           ∧ t' !! "upgradedHttps" = Some data
           ∧ ∀ k, k ≠ "upgradedHttps" → t' !! k = t !! k)
  ∧ upgradedHttps (fields w') = data
  ∧ permissionsData (fields w') = permissionsData (fields w)
  ∧ certificateData (fields w') = certificateData (fields w)
  ∧ protections (fields w') = protections (fields w)
  ∧ isPendingUpdates (fields w') = isPendingUpdates (fields w)
  ∧ parentEntity (fields w') = parentEntity (fields w)
  ∧ cookiePromptManagementStatus (fields w') = cookiePromptManagementStatus (fields w)
  ∧ locale (fields w') = locale (fields w)
  ∧ snapshot_tab (combineSources (fields w')) !! "upgradedHttps" = Some data.
Proof.
  intros Ht w'. subst w'. unfold result, exec.
  rewrite onChangeUpgradedHttps_spec, Ht. simpl.
  match goal with |- context [resolveInitialRender ?w0] =>
    destruct (resolveInitialRender_fields w0) as [Hr Hf] end.
  unfold result, exec in Hr, Hf. rewrite Hr, Hf. simpl.
  split; [done|]. split.
  - exists (<["upgradedHttps" := data]> t). split; [done|]. split.
    + apply lookup_insert_eq.
    + intros k Hk. by apply lookup_insert_ne.
  - repeat (split; [done|]).
    rewrite combineSources_upgradedHttps. simpl. apply lookup_insert_eq.
Qed.

(** ** Recomputing the tracker data *)

(** C6. With [protections] set, a request data delivery, a change of
    [upgradedHttps] and a second delivery of the same raw payload: each
    delivery builds [trackerBlockingData] anew from the values of
    [upgradedHttps] and [protections] known at that time, and the two results
    agree on every property but [upgradedHttps], which holds the one value
    and then the other. *)
Theorem trackerBlockingData_recomputed
    (w : World) (payload tabUrl raw u2 : value) (prot data : gmap string value) :
  protectionsStatusSchema payload = Some prot →
  requestDataSchema raw = Some data →
  let w1 := exec (onChangeProtectionStatus payload) w in
  let w2 := exec (onChangeRequestData tabUrl raw) w1 in
  let w3 := exec (onChangeUpgradedHttps u2) w2 in
  let w4 := exec (onChangeRequestData tabUrl raw) w3 in
  ∃ t1 t2,
    trackerBlockingData (fields w2) = Some t1
    ∧ trackerBlockingData (fields w4) = Some t2
    ∧ t1 = createTabData tabUrl (upgradedHttps (fields w)) prot data
    ∧ t2 = createTabData tabUrl u2 prot data
    ∧ t1 !! "upgradedHttps" = Some (upgradedHttps (fields w))
    ∧ t2 !! "upgradedHttps" = Some u2
    ∧ ∀ k, k ≠ "upgradedHttps" → t1 !! k = t2 !! k.
Proof.
  intros Hp Hr w1 w2 w3 w4.
  assert (Hf1 : fields w1 = set_protections (Some prot) (fields w)).
  { subst w1. unfold exec. rewrite (onChangeProtectionStatus_valid _ _ _ Hp).
    apply resolveInitialRender_fields. }
  assert (Hf2 : fields w2 = set_trackerBlockingData
            (Some (createTabData tabUrl (upgradedHttps (fields w)) prot data))
            (fields w1)).
  { subst w2. unfold exec.
    rewrite (onChangeRequestData_valid tabUrl raw prot data w1);
      [|by rewrite Hf1|done].
    rewrite Hf1 at 1. apply resolveInitialRender_fields. }
  assert (Hf3 : fields w3 = set_trackerBlockingData
            (Some (<["upgradedHttps" := u2]>
               (createTabData tabUrl (upgradedHttps (fields w)) prot data)))
            (set_upgradedHttps u2 (fields w2))).
  { subst w3. unfold exec. rewrite onChangeUpgradedHttps_spec.
    rewrite Hf2 at 1. apply resolveInitialRender_fields. }
  assert (Hf4 : fields w4 = set_trackerBlockingData
            (Some (createTabData tabUrl u2 prot data)) (fields w3)).
  { subst w4. unfold exec.
    rewrite (onChangeRequestData_valid tabUrl raw prot data w3);
      [|by rewrite Hf3, Hf2, Hf1|done].
    rewrite Hf3 at 1. apply resolveInitialRender_fields. }
  eexists _, _. rewrite Hf2, Hf4. simpl.
  split; [done|]. split; [done|]. split; [done|]. split; [done|].
  unfold createTabData. split; [|split].
  - by rewrite lookup_insert_ne, lookup_insert_eq.
  - by rewrite lookup_insert_ne, lookup_insert_eq.
  - intros k Hk. destruct (decide (k = "domain")) as [->|Hd].
    + by rewrite !lookup_insert_eq.
    + rewrite !(lookup_insert_ne _ "domain") by done.
      by rewrite !(lookup_insert_ne _ "upgradedHttps") by done.
Qed.

(** ** Merging and replacing *)

(** The fields after a delivery that its entry point takes. *)
Lemma deliver_accepted_fields (d : Delivery) (w : World) :
  accepted d = true →
  fields (exec (deliver d) w) =
  match d with
  | RequestData tabUrl raw =>
      match protections (fields w), requestDataSchema raw with
      | Some prot, Some data =>
          set_trackerBlockingData
            (Some (createTabData tabUrl (upgradedHttps (fields w)) prot data))
            (fields w)
      | _, _ => fields w
      end
  | ProtectionStatus payload =>
      set_protections (protectionsStatusSchema payload) (fields w)
  | Locale payload => set_locale (localeSettingsSchema payload) (fields w)
  | ConsentManaged payload =>
      set_cookiePromptManagementStatus
        (default ∅ (cookiePromptManagementStatusSchema payload)
           ∪ cookiePromptManagementStatus (fields w)) (fields w)
  | AllowedPermissions data => set_permissionsData data (fields w)
  | UpgradedHttps data =>
      set_trackerBlockingData
        ((λ t, <["upgradedHttps" := data]> t) <$> trackerBlockingData (fields w))
        (set_upgradedHttps data (fields w))
  | CertificateData data =>
      set_certificateData
        (match data with VObj o => default VUndefined (o !! "secCertificateViewModels")
                       | _ => VUndefined end) (fields w)
  | IsPendingUpdates data => set_isPendingUpdates data (fields w)
  | ParentEntity data => set_parentEntity data (fields w)
  end.
Proof.
  intros Ha. destruct d as [tabUrl raw|payload|payload|payload|data|data|data|data|data];
    simpl in Ha; try apply bool_decide_eq_true in Ha as [x Hx]; simpl.
  - destruct (protections (fields w)) as [prot|] eqn:Hp.
    + unfold exec. rewrite (onChangeRequestData_valid _ _ _ _ _ Hp Hx), Hx.
      apply resolveInitialRender_fields.
    + unfold exec. by rewrite (onChangeRequestData_unset _ _ _ Hp).
  - unfold exec. rewrite (onChangeProtectionStatus_valid _ _ _ Hx), Hx.
    apply resolveInitialRender_fields.
  - unfold exec. by rewrite (onChangeLocale_valid _ _ _ Hx), Hx.
  - unfold exec. by rewrite (onChangeConsentManaged_valid _ _ _ Hx), Hx.
  - done.
  - unfold exec. rewrite onChangeUpgradedHttps_spec.
    apply resolveInitialRender_fields.
  - by destruct data.
  - done.
  - done.
Qed.

(** The fields after any delivery to an entry point other than
    [onChangeConsentManaged] and [onChangeUpgradedHttps]: the field of the
    entry point may have changed, the others have not. *)
Lemma deliver_fields_frame (d : Delivery) (w : World) :
  let f := fields w in
  let f' := fields (exec (deliver d) w) in
  match d with
  | RequestData _ _ => f' = set_trackerBlockingData (trackerBlockingData f') f
  | ProtectionStatus _ => f' = set_protections (protections f') f
  | Locale _ => f' = set_locale (locale f') f
  | ConsentManaged _ =>
      f' = set_cookiePromptManagementStatus (cookiePromptManagementStatus f') f
  | AllowedPermissions _ => f' = set_permissionsData (permissionsData f') f
  | UpgradedHttps data =>
      f' = set_trackerBlockingData
             ((λ t, <["upgradedHttps" := data]> t) <$> trackerBlockingData f)
             (set_upgradedHttps data f)
  | CertificateData _ => f' = set_certificateData (certificateData f') f
  | IsPendingUpdates _ => f' = set_isPendingUpdates (isPendingUpdates f') f
  | ParentEntity _ => f' = set_parentEntity (parentEntity f') f
  end.
Proof.
  destruct w as [[? ? ? ? ? ? ? ? ?] ? ? ? ? ? ?].
  destruct d as [tabUrl raw|payload|payload|payload|data|data|data|data|data]; simpl.
  - unfold exec, onChangeRequestData, bind, get. simpl.
    destruct protections0; [|done].
    destruct (requestDataSchema raw); [|done]. simpl.
    unfold update_fields, modify. simpl.
    match goal with |- context [resolveInitialRender ?w0] =>
      destruct (resolveInitialRender_fields w0) as [_ Hf] end.
    unfold exec in Hf. by rewrite Hf.
  - unfold exec, onChangeProtectionStatus.
    destruct (protectionsStatusSchema payload); [|done].
    unfold bind, update_fields, modify. simpl.
    match goal with |- context [resolveInitialRender ?w0] =>
      destruct (resolveInitialRender_fields w0) as [_ Hf] end.
    unfold exec in Hf. by rewrite Hf.
  - unfold exec, onChangeLocale. by destruct (localeSettingsSchema payload).
  - unfold exec, onChangeConsentManaged.
    by destruct (cookiePromptManagementStatusSchema payload).
  - done.
  - unfold exec. rewrite onChangeUpgradedHttps_spec.
    match goal with |- context [resolveInitialRender ?w0] =>
      destruct (resolveInitialRender_fields w0) as [_ Hf] end.
    unfold exec in Hf. by rewrite Hf.
  - by destruct data.
  - done.
  - done.
Qed.

(** A second delivery to the same entry point, other than
    [onChangeConsentManaged], overwrites what the first one did. *)
Lemma replace_semantics (d1 d2 : Delivery) (w : World) :
  same_entry d1 d2 = true → is_consentManaged d2 = false → accepted d2 = true →
  fields (exec (deliver d2) (exec (deliver d1) w)) = fields (exec (deliver d2) w).
Proof.
  intros Hs Hc Ha.
  rewrite !(deliver_accepted_fields d2) by done.
  pose proof (deliver_fields_frame d1 w) as Hfr. simpl in Hfr.
  destruct d1, d2; try discriminate; clear Hs Hc.
  - (* request data *)
    simpl in Ha. apply bool_decide_eq_true in Ha as [data Hd]. rewrite Hd.
    destruct (protections (fields w)) as [prot|] eqn:Hp.
    + rewrite Hfr. simpl. by rewrite Hp.
    + assert (exec (deliver (RequestData tabUrl rawRequestData)) w = w) as ->.
      { unfold exec. simpl. by rewrite (onChangeRequestData_unset _ _ _ Hp). }
      by rewrite Hp.
  - by rewrite Hfr.
  - by rewrite Hfr.
  - by rewrite Hfr.
  - rewrite Hfr. simpl. destruct (trackerBlockingData (fields w)); simpl; [|done].
    by rewrite insert_insert_eq.
  - by rewrite Hfr.
  - by rewrite Hfr.
  - by rewrite Hfr.
Qed.

(** C5. Two valid [onChangeConsentManaged] payloads with disjoint keys leave
    the accumulator, and the snapshot, with every entry of both; two valid
    [onChangeProtectionStatus] payloads leave [protections] with the second
    alone.  The consent accumulator is the only field that merges: for every
    other entry point a second accepted delivery leaves the fields as if the
    first had not happened, and for the consent entry point it does not. *)
Theorem consentManaged_merges_others_replace
    (w : World) (p1 p2 q1 q2 : value) (c1 c2 prot1 prot2 : gmap string value) :
  cookiePromptManagementStatusSchema p1 = Some c1 →
  cookiePromptManagementStatusSchema p2 = Some c2 →
  dom c1 ## dom c2 →
  protectionsStatusSchema q1 = Some prot1 →
  protectionsStatusSchema q2 = Some prot2 →
  let wc := exec (onChangeConsentManaged p2) (exec (onChangeConsentManaged p1) w) in
  let wp := exec (onChangeProtectionStatus q2) (exec (onChangeProtectionStatus q1) w) in
  (cookiePromptManagementStatus (fields wc)
     = c2 ∪ (c1 ∪ cookiePromptManagementStatus (fields w))
   ∧ (∀ k v, c1 !! k = Some v ∨ c2 !! k = Some v →
             cookiePromptManagementStatus (fields wc) !! k = Some v)
   ∧ snapshot_tab (combineSources (fields wc)) !! "cookiePromptManagementStatus"
     = Some (VObj (cookiePromptManagementStatus (fields wc))))
  ∧ (protections (fields wp) = Some prot2
     ∧ fields wp = fields (exec (onChangeProtectionStatus q2) w))
  ∧ (∀ d1 d2 w0,
       same_entry d1 d2 = true → is_consentManaged d2 = false → accepted d2 = true →
       fields (exec (deliver d2) (exec (deliver d1) w0)) = fields (exec (deliver d2) w0))
  ∧ (∀ k v, c1 !! k = Some v → cookiePromptManagementStatus (fields w) !! k ≠ Some v →
       fields wc ≠ fields (exec (onChangeConsentManaged p2) w)).
Proof.
  intros Hc1 Hc2 Hdisj Hq1 Hq2 wc wp.
  assert (Hwc : cookiePromptManagementStatus (fields wc)
     = c2 ∪ (c1 ∪ cookiePromptManagementStatus (fields w))).
  { subst wc. unfold exec.
    rewrite (onChangeConsentManaged_valid p1 c1 w Hc1). simpl.
    by rewrite (onChangeConsentManaged_valid p2 c2 _ Hc2). }
  split; [|split; [|split]].
  - split; [done|]. split; [|apply combineSources_cookiePromptManagementStatus].
    intros k v [Hk|Hk]; rewrite Hwc.
    + assert (c2 !! k = None) as Hn.
      { apply not_elem_of_dom. intros Hin. apply (Hdisj k); [|done].
        apply elem_of_dom. eauto. }
      rewrite lookup_union_r by done. by apply lookup_union_Some_l.
    + by apply lookup_union_Some_l.
  - assert (Hrep := replace_semantics (ProtectionStatus q1) (ProtectionStatus q2) w).
    simpl in Hrep. rewrite Hq2 in Hrep. specialize (Hrep eq_refl eq_refl).
    rewrite bool_decide_eq_true_2 in Hrep by eauto. specialize (Hrep eq_refl).
    split; [|done]. subst wp. rewrite Hrep.
    pose proof (deliver_accepted_fields (ProtectionStatus q2) w) as Ha.
    simpl in Ha. rewrite Hq2 in Ha. rewrite bool_decide_eq_true_2 in Ha by eauto.
    by rewrite (Ha eq_refl).
  - intros d1 d2 w0. apply replace_semantics.
  - intros k v Hk Hne Heq.
    apply (f_equal cookiePromptManagementStatus) in Heq. rewrite Hwc in Heq.
    unfold exec in Heq. rewrite (onChangeConsentManaged_valid p2 c2 w Hc2) in Heq.
    simpl in Heq. apply (f_equal (λ m, m !! k)) in Heq. simpl in Heq.
    assert (c2 !! k = None) as Hn.
    { apply not_elem_of_dom. intros Hin. apply (Hdisj k); [|done].
      apply elem_of_dom. eauto. }
    rewrite !lookup_union_r in Heq by done.
    rewrite (lookup_union_Some_l _ _ _ _ Hk) in Heq.
    rewrite lookup_union_r in Heq by done. congruence.
Qed.

(** ** Asking for the snapshot *)

Lemma settle_fresh (ps : list pstate) (s : pstate) :
  settle (length ps) s (ps ++ [Pending]) = ps ++ [s].
Proof.
  unfold settle. rewrite list_lookup_middle by done.
  rewrite insert_app_r_alt by done. by rewrite Nat.sub_diag.
Qed.

Lemma getBackgroundTabData_spec (w : World) :
  getBackgroundTabData w
  = (Return (length (promises w)),
     match trackerBlockingData (fields w) with
     | Some _ =>
         mkWorld (fields w) (getBackgroundTabDataPromises w)
                 (promises w ++ [Fulfilled (VObj (combineSources (fields w)))])
                 (resolveCalls w
                    ++ [(length (promises w), VObj (combineSources (fields w)))])
                 (channel w) (console w) (window w)
     | None =>
         mkWorld (fields w) (getBackgroundTabDataPromises w ++ [length (promises w)])
                 (promises w ++ [Pending]) (resolveCalls w)
                 (channel w) (console w) (window w)
     end).
Proof.
  unfold getBackgroundTabData, newPromise, bind, get. simpl.
  destruct (trackerBlockingData (fields w)); simpl; [|done].
  by rewrite settle_fresh.
Qed.

(** C7. Two calls of [getBackgroundTabData] with no delivery in between
    leave the fields untouched and give two distinct promises in the same
    state: both pending, or both fulfilled with the same snapshot, the one
    combined from the fields.  The snapshot depends on the fields alone:
    whatever the queue, the promises, the console, the channel and the window
    are, the same fields give the same outcome. *)
Theorem getBackgroundTabData_twice (w : World) :
  let w1 := exec getBackgroundTabData w in
  let w2 := exec getBackgroundTabData w1 in
  let outcome :=
    match trackerBlockingData (fields w) with
    | Some _ => Fulfilled (VObj (combineSources (fields w)))
    | None => Pending
    end in
  ∃ pid1 pid2,
    result getBackgroundTabData w = Return pid1
    ∧ result getBackgroundTabData w1 = Return pid2
    ∧ pid1 ≠ pid2
    ∧ fields w1 = fields w ∧ fields w2 = fields w
    ∧ promises w1 !! pid1 = Some outcome
    ∧ promises w2 !! pid1 = Some outcome
    ∧ promises w2 !! pid2 = Some outcome
    ∧ ∀ q ps rc ch con win,
        promises (exec getBackgroundTabData (mkWorld (fields w) q ps rc ch con win))
          !! length ps = Some outcome.
Proof.
  intros w1 w2 outcome.
  assert (Hpure : ∀ q ps rc ch con win,
    promises (exec getBackgroundTabData (mkWorld (fields w) q ps rc ch con win))
      !! length ps = Some outcome).
  { intros q ps rc ch con win. unfold exec. rewrite getBackgroundTabData_spec.
    subst outcome. simpl.
    destruct (trackerBlockingData (fields w)); simpl; by apply list_lookup_middle. }
  cut (∃ pid1 pid2 : nat,
    result getBackgroundTabData w = Return pid1
    ∧ result getBackgroundTabData w1 = Return pid2
    ∧ pid1 ≠ pid2
    ∧ fields w1 = fields w ∧ fields w2 = fields w
    ∧ promises w1 !! pid1 = Some outcome
    ∧ promises w2 !! pid1 = Some outcome
    ∧ promises w2 !! pid2 = Some outcome).
  { intros (pid1 & pid2 & H1 & H2 & H3 & H4 & H5 & H6 & H7 & H8).
    exists pid1, pid2. repeat (split; [assumption|]). exact Hpure. }
  clear Hpure.
  subst w2 w1 outcome. unfold exec, result.
  rewrite !getBackgroundTabData_spec. simpl.
  exists (length (promises w)).
  destruct (trackerBlockingData (fields w)) as [t|] eqn:Ht; simpl; rewrite Ht;
    simpl; rewrite ?length_app; simpl.
  - exists (length (promises w) + 1). repeat split; try done; try lia.
    + by apply list_lookup_middle.
    + rewrite lookup_app_l by (rewrite length_app; simpl; lia).
      by apply list_lookup_middle.
    + apply list_lookup_middle. rewrite length_app. simpl. lia.
  - exists (length (promises w) + 1). repeat split; try done; try lia.
    + by apply list_lookup_middle.
    + rewrite lookup_app_l by (rewrite length_app; simpl; lia).
      by apply list_lookup_middle.
    + apply list_lookup_middle. rewrite length_app. simpl. lia.
Qed.

(** ** Outgoing messages *)

Lemma has_handler_messageHandlers name w :
  has_handler name w = true →
  ∃ hs, messageHandlers (window w) = Some hs ∧ name ∈ hs.
Proof.
  unfold has_handler. destruct (messageHandlers (window w)) as [hs|]; [|done].
  intros Hin%bool_decide_eq_true. eauto.
Qed.

Lemma fetch_listItem_spec (eventOrigin : value) (item : listItem) (w : World) :
  has_handler "privacyDashboardSetProtection" w = true →
  boolean_valued item →
  ∃ warnings,
    fetch_listItem eventOrigin item w
    = (Return tt,
       mkWorld (fields w) (getBackgroundTabDataPromises w) (promises w)
               (resolveCalls w) (channel w) (console w ++ warnings)
               (mkWindow (messageHandlers (window w))
                         (posted (window w) ++ translated eventOrigin item)
                         (onGetToggleReportOptionsResponse (window w))
                         (__playwright (window w)))).
Proof.
  intros Hh [v Hv]. pose proof Hh as (hs & Hhs & Hin)%has_handler_messageHandlers.
  unfold fetch_listItem, translated. rewrite Hv.
  destruct (decide (list_name item = "allowlisted")) as [Hn|Hn].
  - rewrite Hn. simpl. exists [].
    unfold privacyDashboardSetProtection, bind, get. rewrite Hh. simpl.
    unfold postMessage, bind, get. rewrite Hhs, bool_decide_eq_true_2 by done.
    unfold modify, with_window, SetProtection. simpl.
    rewrite app_nil_r, <- Hhs. by destruct v.
  - apply String.eqb_neq in Hn. rewrite Hn. simpl. unfold bind, get.
    destruct w as [? ? ? ? ? ? [? ? ? pw]]. simpl. destruct pw; simpl.
    + exists []. unfold ret.
      by rewrite (app_nil_r (A:=logEntry)), (app_nil_r (A:=string * value)).
    + eexists. unfold log, modify. simpl.
      by rewrite (app_nil_r (A:=string * value)).
Qed.

Lemma forEach_listItem_spec (eventOrigin : value) (lists : list listItem) (w : World) :
  has_handler "privacyDashboardSetProtection" w = true →
  Forall boolean_valued lists →
  ∃ warnings,
    forEach (fetch_listItem eventOrigin) lists w
    = (Return tt,
       mkWorld (fields w) (getBackgroundTabDataPromises w) (promises w)
               (resolveCalls w) (channel w) (console w ++ warnings)
               (mkWindow (messageHandlers (window w))
                         (posted (window w) ++ flat_map (translated eventOrigin) lists)
                         (onGetToggleReportOptionsResponse (window w))
                         (__playwright (window w)))).
Proof.
  intros Hh Hb. revert w Hh. induction Hb as [|item lists Hitem _ IH]; intros w Hh.
  - exists []. destruct w as [? ? ? ? ? ? []]. simpl. unfold ret.
    by rewrite (app_nil_r (A:=logEntry)), (app_nil_r (A:=string * value)).
  - destruct (fetch_listItem_spec eventOrigin item w Hh Hitem) as [ws1 E1].
    simpl. unfold bind at 1. rewrite E1.
    match goal with |- context [forEach _ lists ?w1] =>
      destruct (IH w1) as [ws2 E2]; [done|] end.
    rewrite E2. simpl. exists (ws1 ++ ws2). by rewrite <- !app_assoc.
Qed.

(** C8. With the protection-toggle handler installed, [fetch] of a
    [SetListsMessage] whose entries carry booleans posts, in order, exactly
    one [privacyDashboardSetProtection] message for each [allowlisted] entry,
    with [isProtected] the negation of the entry's value, and nothing for an
    entry of any other list; posting is all it does to the window. *)
Theorem setLists_translation (lists : list listItem) (eventOrigin : value) (w : World) :
  has_handler "privacyDashboardSetProtection" w = true →
  Forall boolean_valued lists →
  let w' := exec (fetch (SetListsMessage lists eventOrigin)) w in
  result (fetch (SetListsMessage lists eventOrigin)) w = Return (FetchReturn VUndefined)
  ∧ posted (window w') = posted (window w) ++ flat_map (translated eventOrigin) lists
  ∧ (∀ v, translated eventOrigin (mkListItem "allowlisted" (VBool v))
          = [SetProtection eventOrigin (negb v)])
  ∧ (∀ name v, name ≠ "allowlisted" →
               translated eventOrigin (mkListItem name v) = [])
  ∧ fields w' = fields w.
Proof.
  intros Hh Hb w'. subst w'. unfold result, exec. simpl. unfold bind.
  destruct (forEach_listItem_spec eventOrigin lists w Hh Hb) as [ws E].
  rewrite E. simpl. repeat split; try done.
  intros name v Hn. unfold translated. simpl. by rewrite decide_False.
Qed.

(** ** The toggle-report request *)

Lemma privacyDashboardGetToggleReportOptions_spec (w : World) :
  has_handler "privacyDashboardGetToggleReportOptions" w = true →
  privacyDashboardGetToggleReportOptions w
  = (Return (length (promises w)),
     mkWorld (fields w) (getBackgroundTabDataPromises w)
             (promises w ++ [Pending]) (resolveCalls w) (channel w) (console w)
             (mkWindow (messageHandlers (window w))
                (posted (window w)
                   ++ [("privacyDashboardGetToggleReportOptions", VObj ∅)])
                (Some (length (promises w)))
                (__playwright (window w)))).
Proof.
  intros Hh. destruct w as [f q ps rc ch con [mh po slot pw]].
  unfold has_handler in Hh. simpl in Hh. destruct mh as [hs|]; [|done].
  apply bool_decide_eq_true in Hh.
  unfold privacyDashboardGetToggleReportOptions, newPromise, bind, get,
    has_messageHandlers, has_handler, postMessage, bind, get. simpl.
  repeat (rewrite bool_decide_eq_true_2 by (done || eauto); simpl). done.
Qed.

Lemma onGetToggleReportOptionsResponse_call_spec (data : value) (w : World) :
  onGetToggleReportOptionsResponse_call data w
  = match onGetToggleReportOptionsResponse (window w) with
    | Some pid =>
        (Return tt,
         mkWorld (fields w) (getBackgroundTabDataPromises w)
                 (settle pid (Fulfilled data) (promises w))
                 (resolveCalls w ++ [(pid, data)]) (channel w) (console w)
                 (mkWindow (messageHandlers (window w)) (posted (window w))
                           None (__playwright (window w))))
    | None =>
        (Throw (TypeError "window.onGetToggleReportOptionsResponse is not a function"), w)
    end.
Proof.
  unfold onGetToggleReportOptionsResponse_call, bind, get.
  by destruct (onGetToggleReportOptionsResponse (window w)).
Qed.

Lemma replies_without_handler (later : list value) (w : World) :
  onGetToggleReportOptionsResponse (window w) = None →
  foldl (λ w d, exec (onGetToggleReportOptionsResponse_call d) w) w later = w.
Proof.
  intros Hn. induction later as [|d later IH]; [done|]. simpl.
  unfold exec at 2. rewrite onGetToggleReportOptionsResponse_call_spec, Hn.
  apply IH.
Qed.

(** C9. With the handler installed, [privacyDashboardGetToggleReportOptions]
    posts one message and stores one reply handler, the one of the promise
    it returns.  The first reply fulfils that promise with its data, by a
    single call of the resolver, and removes the handler; whatever replies
    follow find no handler and change nothing. *)
Theorem toggleReport_reply_consumed_once (w : World) (data : value) (later : list value) :
  has_handler "privacyDashboardGetToggleReportOptions" w = true →
  let w1 := exec privacyDashboardGetToggleReportOptions w in
  let w2 := exec (onGetToggleReportOptionsResponse_call data) w1 in
  let w3 := foldl (λ w d, exec (onGetToggleReportOptionsResponse_call d) w) w2 later in
  ∃ pid,
    result privacyDashboardGetToggleReportOptions w = Return pid
    ∧ posted (window w1)
      = posted (window w) ++ [("privacyDashboardGetToggleReportOptions", VObj ∅)]
    ∧ onGetToggleReportOptionsResponse (window w1) = Some pid
    ∧ promises w1 !! pid = Some Pending
    ∧ result (onGetToggleReportOptionsResponse_call data) w1 = Return tt
    ∧ promises w2 !! pid = Some (Fulfilled data)
    ∧ resolveCalls w2 = resolveCalls w ++ [(pid, data)]
    ∧ onGetToggleReportOptionsResponse (window w2) = None
    ∧ w3 = w2
    ∧ promises w3 !! pid = Some (Fulfilled data).
Proof.
  intros Hh w1 w2 w3. exists (length (promises w)).
  assert (Hw1 := privacyDashboardGetToggleReportOptions_spec w Hh).
  assert (E1 : w1 = snd (privacyDashboardGetToggleReportOptions w)) by done.
  rewrite Hw1 in E1. simpl in E1.
  assert (E2 : w2 = snd (onGetToggleReportOptionsResponse_call data w1)) by done.
  rewrite onGetToggleReportOptionsResponse_call_spec in E2.
  rewrite E1 in E2 at 1. simpl in E2. rewrite E1 in E2. simpl in E2.
  rewrite settle_fresh in E2.
  assert (E3 : w3 = w2).
  { subst w3. apply replies_without_handler. by rewrite E2. }
  unfold result. rewrite Hw1, onGetToggleReportOptionsResponse_call_spec.
  rewrite E3, E2. rewrite E1. simpl.
  repeat split; try done; by apply list_lookup_middle.
Qed.

(** ** The pending queue *)

Lemma deliver_all_app (ds1 ds2 : list Delivery) (w : World) :
  deliver_all (ds1 ++ ds2) w = deliver_all ds2 (deliver_all ds1 w).
Proof. apply foldl_app. Qed.

Lemma deliver_all_snoc (ds : list Delivery) (d : Delivery) (w : World) :
  deliver_all (ds ++ [d]) w = exec (deliver d) (deliver_all ds w).
Proof. by rewrite deliver_all_app. Qed.

(** What [resolveInitialRender] does to the queue and to the promises. *)
Lemma resolveInitialRender_promises (w : World) :
  let w' := exec resolveInitialRender w in
  let v := VObj (combineSources (fields w)) in
  fields w' = fields w
  ∧ getBackgroundTabDataPromises w' = getBackgroundTabDataPromises w
  ∧ if ready (fields w)
    then promises w' = settle_all (getBackgroundTabDataPromises w) v (promises w)
         ∧ resolveCalls w'
           = resolveCalls w ++ map (λ pid, (pid, v)) (getBackgroundTabDataPromises w)
    else promises w' = promises w ∧ resolveCalls w' = resolveCalls w.
Proof.
  unfold exec. rewrite resolveInitialRender_spec. simpl.
  by destruct (ready (fields w)).
Qed.

(** What a delivery does to the queue and to the promises: the queue is
    never touched, and the resolvers are called, all of them, exactly when
    the delivery reaches [resolveInitialRender] and the gate is open. *)
Lemma deliver_promises (d : Delivery) (w : World) :
  let w' := exec (deliver d) w in
  let v := VObj (combineSources (fields w')) in
  getBackgroundTabDataPromises w' = getBackgroundTabDataPromises w
  ∧ if triggers d w && ready (fields w')
    then promises w' = settle_all (getBackgroundTabDataPromises w) v (promises w)
         ∧ resolveCalls w'
           = resolveCalls w ++ map (λ pid, (pid, v)) (getBackgroundTabDataPromises w)
    else promises w' = promises w ∧ resolveCalls w' = resolveCalls w.
Proof.
  assert (Hrir : ∀ w0 : World, fields w0 = fields (exec resolveInitialRender w0) →
    getBackgroundTabDataPromises (exec resolveInitialRender w0)
      = getBackgroundTabDataPromises w0
    ∧ if ready (fields (exec resolveInitialRender w0))
      then promises (exec resolveInitialRender w0)
           = settle_all (getBackgroundTabDataPromises w0)
               (VObj (combineSources (fields (exec resolveInitialRender w0))))
               (promises w0)
           ∧ resolveCalls (exec resolveInitialRender w0)
             = resolveCalls w0
               ++ map (λ pid, (pid, VObj (combineSources
                                 (fields (exec resolveInitialRender w0)))))
                    (getBackgroundTabDataPromises w0)
      else promises (exec resolveInitialRender w0) = promises w0
           ∧ resolveCalls (exec resolveInitialRender w0) = resolveCalls w0).
  { intros w0 _. destruct (resolveInitialRender_promises w0) as (Hf & Hq & Hps).
    rewrite Hf. done. }
  destruct d as [tabUrl raw|payload|payload|payload|data|data|data|data|data];
    unfold triggers; cbv zeta; unfold exec; simpl deliver.
  - destruct (protections (fields w)) as [prot|] eqn:Hp.
    + rewrite (bool_decide_eq_true_2 (is_Some (Some prot))) by eauto.
      destruct (requestDataSchema raw) as [data|] eqn:Hr.
      * rewrite bool_decide_eq_true_2 by eauto.
        rewrite (onChangeRequestData_valid _ _ _ _ _ Hp Hr).
        rewrite andb_true_l. apply (Hrir (with_fields _ w)).
        symmetry. apply resolveInitialRender_fields.
      * rewrite bool_decide_eq_false_2 by (by intros [? ?]).
        by rewrite (onChangeRequestData_invalid _ _ _ _ Hp Hr).
    + rewrite bool_decide_eq_false_2 by (by intros [? ?]).
      by rewrite (onChangeRequestData_unset _ _ _ Hp).
  - destruct (protectionsStatusSchema payload) as [prot|] eqn:Hp.
    + rewrite bool_decide_eq_true_2 by eauto.
      rewrite (onChangeProtectionStatus_valid _ _ _ Hp).
      apply (Hrir (with_fields _ w)). symmetry. apply resolveInitialRender_fields.
    + rewrite bool_decide_eq_false_2 by (by intros [? ?]).
      unfold onChangeProtectionStatus. by rewrite Hp.
  - unfold onChangeLocale. by destruct (localeSettingsSchema payload).
  - unfold onChangeConsentManaged.
    by destruct (cookiePromptManagementStatusSchema payload).
  - done.
  - rewrite onChangeUpgradedHttps_spec.
    apply (Hrir (with_fields _ w)). symmetry. apply resolveInitialRender_fields.
  - by destruct data.
  - done.
  - done.
Qed.

Lemma deliver_all_queue (ds : list Delivery) (w : World) :
  getBackgroundTabDataPromises (deliver_all ds w) = getBackgroundTabDataPromises w.
Proof.
  revert w. induction ds as [|d ds IH]; intros w; [done|].
  simpl. rewrite IH. apply deliver_promises.
Qed.










(** ** The readiness gate *)

Lemma deliver_pending_not_ready (d : Delivery) (w : World) (pid : nat) :
  promises w !! pid = Some Pending →
  ready (fields (exec (deliver d) w)) = false →
  promises (exec (deliver d) w) !! pid = Some Pending.
Proof.
  intros Hp Hr. destruct (deliver_promises d w) as [_ Hps].
  rewrite Hr, andb_false_r in Hps. by destruct Hps as [-> _].
Qed.

Lemma deliver_flush (d : Delivery) (w : World) (pid : nat) :
  pid ∈ getBackgroundTabDataPromises w →
  promises w !! pid = Some Pending →
  triggers d w = true →
  ready (fields (exec (deliver d) w)) = true →
  promises (exec (deliver d) w) !! pid
  = Some (Fulfilled (VObj (combineSources (fields (exec (deliver d) w))))).
Proof.
  intros Hq Hp Ht Hr. destruct (deliver_promises d w) as [_ Hps].
  rewrite Ht, Hr in Hps. destruct Hps as [-> _]. by apply settle_all_queued.
Qed.

Section Orderings.
Variables (tabUrl raw payload localePayload : value) (b : bool).
Variables (data prot : gmap string value) (l : string).
Hypothesis Hraw : requestDataSchema raw = Some data.
Hypothesis Hprot : protectionsStatusSchema payload = Some prot.
Hypothesis Hlocale : localeSettingsSchema localePayload = Some l.

Lemma required_delivery_fields (r : required) (w : World) :
  fields (exec (deliver (required_delivery tabUrl raw payload localePayload b r)) w)
  = required_step tabUrl b data prot l r (fields w).
Proof.
  rewrite deliver_accepted_fields.
  - destruct r; simpl; rewrite ?Hraw, ?Hprot, ?Hlocale; done.
  - destruct r; simpl; rewrite ?Hraw, ?Hprot, ?Hlocale; try done;
      by apply bool_decide_eq_true_2.
Qed.

Lemma required_deliveries_fields (order : list required) (w : World) :
  fields (deliver_all (map (required_delivery tabUrl raw payload localePayload b) order) w)
  = foldl (λ f r, required_step tabUrl b data prot l r f) (fields w) order.
Proof.
  revert w. induction order as [|r order IH]; intros w; [done|].
  simpl. by rewrite IH, required_delivery_fields.
Qed.

Lemma required_delivery_triggers (r : required) (w : World) :
  triggers (required_delivery tabUrl raw payload localePayload b r) w
  = match r with
    | RequiredRequestData => bool_decide (is_Some (protections (fields w)))
    | RequiredLocale => false
    | _ => true
    end.
Proof.
  destruct r; simpl; rewrite ?Hraw, ?Hprot; try done.
  rewrite (bool_decide_eq_true_2 (is_Some (Some data))) by eauto.
  apply andb_true_r.
Qed.

(** Fewer than four of the required updates never open the gate. *)
Lemma not_ready_before_four (order : list required) (k : nat) :
  order ≡ₚ all_required → k < 4 →
  ready (foldl (λ f r, required_step tabUrl b data prot l r f) initialFields
               (take k order)) = false.
Proof.
  intros Hperm Hk. symmetry in Hperm. apply permutations_Permutation in Hperm.
  assert (Hall : Forall (λ order, ∀ k, k < 4 →
      ready (foldl (λ f r, required_step tabUrl b data prot l r f) initialFields
                   (take k order)) = false) (permutations all_required));
    [|exact (proj1 (Forall_forall _ _) Hall order Hperm k Hk)].
  clear. vm_compute permutations.
  repeat apply Forall_cons_2; [..|apply Forall_nil_2];
    intros [|[|[|[|k]]]] Hk; try lia; reflexivity.
Qed.

(** With protections before the request data, the four updates open it,
    and protections are known when the request data comes last. *)
Lemma ready_after_four (order : list required) :
  order ≡ₚ all_required →
  before RequiredProtections RequiredRequestData order = true →
  last order ≠ Some RequiredLocale →
  ∃ init r,
    order = init ++ [r] ∧ r ≠ RequiredLocale
    ∧ ready (foldl (λ f r, required_step tabUrl b data prot l r f)
                   initialFields order) = true
    ∧ (r = RequiredRequestData →
       is_Some (protections
         (foldl (λ f r, required_step tabUrl b data prot l r f) initialFields init))).
Proof.
  intros Hperm. symmetry in Hperm. apply permutations_Permutation in Hperm.
  assert (Hall : Forall (λ order,
      before RequiredProtections RequiredRequestData order = true →
      last order ≠ Some RequiredLocale →
      ∃ init r,
        order = init ++ [r] ∧ r ≠ RequiredLocale
        ∧ ready (foldl (λ f r, required_step tabUrl b data prot l r f)
                       initialFields order) = true
        ∧ (r = RequiredRequestData →
           is_Some (protections
             (foldl (λ f r, required_step tabUrl b data prot l r f)
                    initialFields init)))) (permutations all_required));
    [|exact (proj1 (Forall_forall _ _) Hall order Hperm)].
  clear. vm_compute permutations.
  repeat apply Forall_cons_2; [..|apply Forall_nil_2];
    intros Hb Hl; try discriminate Hb; try (by destruct Hl);
    (eexists [_; _; _], _; split; [reflexivity|]);
    (split; [done|]); (split; [reflexivity|]); intros _; vm_compute; eauto.
Qed.

Lemma pending_before_four (order : list required) (w0 : World) (pid k : nat) :
  order ≡ₚ all_required →
  fields w0 = initialFields →
  promises w0 !! pid = Some Pending →
  k < 4 →
  promises (deliver_all
    (take k (map (required_delivery tabUrl raw payload localePayload b) order)) w0)
    !! pid = Some Pending.
Proof.
  intros Hperm Hf Hp. induction k as [|k IH]; intros Hk; [done|].
  assert (length (map (required_delivery tabUrl raw payload localePayload b) order) = 4)
    as Hlen by (by rewrite length_map, Hperm).
  destruct (lookup_lt_is_Some_2
    (map (required_delivery tabUrl raw payload localePayload b) order) k)
    as [d Hd]; [lia|].
  assert (Hr : ready (fields (deliver_all (take (S k)
      (map (required_delivery tabUrl raw payload localePayload b) order)) w0)) = false).
  { change (map ?f order) with (f <$> order). rewrite <- fmap_take.
    change (?f <$> take (S k) order) with (map f (take (S k) order)).
    rewrite required_deliveries_fields, Hf. by apply not_ready_before_four. }
  rewrite (take_S_r _ _ _ Hd), deliver_all_snoc in Hr |- *.
  apply deliver_pending_not_ready; [|done]. apply IH. lia.
Qed.

(** C1, as amended. [getBackgroundTabData] resolves at once exactly when
    [trackerBlockingData] is set, and queues its resolver otherwise.  A
    resolver queued before any update stays unresolved while fewer than four
    of the required updates have been made, whatever their order; and for
    every order of the four in which protections come before the request
    data and the locale is not the last, the update that completes the four
    resolves it with the snapshot combined at that moment. *)
Theorem readiness_gate (order : list required) (w : World) :
  order ≡ₚ all_required →
  fields w = initialFields →
  let pid := length (promises w) in
  let w0 := exec getBackgroundTabData w in
  let ds := map (required_delivery tabUrl raw payload localePayload b) order in
  result getBackgroundTabData w = Return pid
  ∧ (∀ k, k < 4 → promises (deliver_all (take k ds) w0) !! pid = Some Pending)
  ∧ (before RequiredProtections RequiredRequestData order = true →
     last order ≠ Some RequiredLocale →
     ready (fields (deliver_all ds w0)) = true
     ∧ promises (deliver_all ds w0) !! pid
       = Some (Fulfilled (VObj (combineSources (fields (deliver_all ds w0))))))
  ∧ (∀ w', promises (exec getBackgroundTabData w') !! length (promises w')
           = Some match trackerBlockingData (fields w') with
                  | Some _ => Fulfilled (VObj (combineSources (fields w')))
                  | None => Pending
                  end).
Proof.
  intros Hperm Hf pid w0 ds.
  assert (Hw0 : w0 = mkWorld (fields w) (getBackgroundTabDataPromises w ++ [pid])
                       (promises w ++ [Pending]) (resolveCalls w)
                       (channel w) (console w) (window w)).
  { subst w0. unfold exec. rewrite getBackgroundTabData_spec. by rewrite Hf. }
  assert (Hf0 : fields w0 = initialFields) by (by rewrite Hw0).
  assert (Hp0 : promises w0 !! pid = Some Pending).
  { rewrite Hw0. by apply list_lookup_middle. }
  assert (Hq0 : pid ∈ getBackgroundTabDataPromises w0).
  { rewrite Hw0. simpl. apply elem_of_app. right. by apply list_elem_of_singleton. }
  split; [|split; [|split]].
  - unfold result. by rewrite getBackgroundTabData_spec.
  - intros k Hk. by apply pending_before_four.
  - intros Hb Hl.
    destruct (ready_after_four order Hperm Hb Hl) as (init & r & -> & Hr & Hready & Hprot').
    assert (Hlen : length init = 3).
    { apply Permutation_length in Hperm. rewrite length_app in Hperm.
      simpl in Hperm. lia. }
    subst ds. rewrite map_app. simpl map. rewrite deliver_all_snoc.
    assert (Hready' : ready (fields (exec
        (deliver (required_delivery tabUrl raw payload localePayload b r))
        (deliver_all (map (required_delivery tabUrl raw payload localePayload b) init) w0)))
      = true).
    { rewrite <- deliver_all_snoc.
      change [required_delivery tabUrl raw payload localePayload b r]
        with (map (required_delivery tabUrl raw payload localePayload b) [r]).
      rewrite <- map_app, required_deliveries_fields. by rewrite Hf0. }
    split; [done|]. apply deliver_flush; [| | |done].
    + by rewrite deliver_all_queue.
    + pose proof (pending_before_four (init ++ [r]) w0 pid 3 Hperm Hf0 Hp0) as H3.
      rewrite map_app, take_app_length' in H3 by (by rewrite length_map).
      apply H3. lia.
    + rewrite required_delivery_triggers. destruct r; try done.
      apply bool_decide_eq_true_2. rewrite required_deliveries_fields, Hf0. auto.
  - intros w'. unfold exec. rewrite getBackgroundTabData_spec.
    destruct (trackerBlockingData (fields w')); simpl; by apply list_lookup_middle.
Qed.

End Orderings.

End Properties.

(** * Concrete runs *)

(** The theorems above at concrete inputs, in the sample environment, and
    the runs on which the statements that had to be amended fail. *)

Lemma requestData_before_protections_throws_witness :
  result (onChangeRequestData (I := sampleImports) sampleUrl sampleRequestData)
         (initialWorld sampleWindow)
  = Throw (Error "protections status not set")
  ∧ exec (onChangeRequestData (I := sampleImports) sampleUrl sampleRequestData)
         (initialWorld sampleWindow)
    = initialWorld sampleWindow.
Proof.
  destruct (requestData_before_protections_throws (I := sampleImports)
              sampleUrl sampleRequestData (initialWorld sampleWindow))
    as (Hr & He & _); [reflexivity|].
  split; [exact Hr|exact He].
Defined.

(** A rejected request data payload delivered before the protections: the
    call throws instead of logging and returning. *)
Lemma rejected_requestData_throws :
  rejected (I := sampleImports) (RequestData sampleUrl VNull) = true
  ∧ result (deliver (I := sampleImports) (RequestData sampleUrl VNull))
           (initialWorld sampleWindow)
    = Throw (Error "protections status not set").
Proof. split; reflexivity. Qed.

Lemma rejected_payload_dropped_witness :
  ∃ msg e,
    deliver (I := sampleImports) (RequestData sampleUrl VNull) sampleTracked
    = (Return tt, logged [console_error msg; e] sampleTracked)
    ∧ fields (exec (deliver (I := sampleImports) (RequestData sampleUrl VNull))
                   sampleTracked)
      = fields sampleTracked.
Proof.
  apply (rejected_payload_dropped (I := sampleImports)).
  - reflexivity.
  - intros _. eexists. reflexivity.
Defined.

Lemma upgradedHttps_patches_trackerBlockingData_witness :
  snapshot_tab (combineSources
    (fields (exec (onChangeUpgradedHttps (VBool true)) sampleTracked)))
    !! "upgradedHttps"
  = Some (VBool true).
Proof.
  destruct (trackerBlockingData (fields sampleTracked)) as [t|] eqn:Ht;
    [|discriminate Ht].
  pose proof (upgradedHttps_patches_trackerBlockingData
                (VBool true) t sampleTracked Ht) as H.
  cbv zeta in H. apply H.
Defined.

Lemma trackerBlockingData_recomputed_witness :
  ∃ t1 t2 : gmap string value,
    trackerBlockingData (fields sampleTracked) = Some t1
    ∧ t1 !! "upgradedHttps" = Some VUndefined
    ∧ t2 !! "upgradedHttps" = Some (VBool true)
    ∧ ∀ k, k ≠ "upgradedHttps" → t1 !! k = t2 !! k.
Proof.
  destruct (trackerBlockingData_recomputed (I := sampleImports)
              (initialWorld sampleWindow) sampleProtections sampleUrl
              sampleRequestData (VBool true) sampleProtectionsStatus
              sampleRequests eq_refl eq_refl)
    as (t1 & t2 & H1 & _ & _ & _ & H3 & H4 & H5).
  exists t1, t2. split; [exact H1|]. split; [exact H3|]. split; [exact H4|exact H5].
Defined.

Lemma consentManaged_merges_others_replace_witness :
  let payload1 := VObj {[ "cosmetic" := VBool true ]} in
  let payload2 := VObj {[ "optoutFailed" := VBool false ]} in
  let w := exec (onChangeConsentManaged (I := sampleImports) payload2)
             (exec (onChangeConsentManaged (I := sampleImports) payload1)
                   (initialWorld sampleWindow)) in
  cookiePromptManagementStatus (fields w) !! "cosmetic" = Some (VBool true)
  ∧ cookiePromptManagementStatus (fields w) !! "optoutFailed" = Some (VBool false).
Proof.
  intros payload1 payload2 w.
  destruct (consentManaged_merges_others_replace (I := sampleImports)
              (initialWorld sampleWindow) payload1 payload2
              sampleProtections sampleProtections
              {[ "cosmetic" := VBool true ]} {[ "optoutFailed" := VBool false ]}
              sampleProtectionsStatus sampleProtectionsStatus
              eq_refl eq_refl) as ((_ & Hunion & _) & _);
    [|reflexivity|reflexivity|].
  - rewrite !dom_singleton_L. apply disjoint_singleton_l.
    rewrite elem_of_singleton. discriminate.
  - split; apply Hunion.
    + left. reflexivity.
    + right. reflexivity.
Defined.

Lemma setLists_translation_witness :
  posted (window (exec
    (fetch (SetListsMessage
       [mkListItem "allowlisted" (VBool true); mkListItem "denylisted" (VBool true);
        mkListItem "allowlisted" (VBool false)]
       (VObj {[ "screen" := VStr "primaryScreen" ]})))
    (initialWorld sampleWindow)))
  = [SetProtection (VObj {[ "screen" := VStr "primaryScreen" ]}) false;
     SetProtection (VObj {[ "screen" := VStr "primaryScreen" ]}) true].
Proof.
  destruct (setLists_translation
              [mkListItem "allowlisted" (VBool true);
               mkListItem "denylisted" (VBool true);
               mkListItem "allowlisted" (VBool false)]
              (VObj {[ "screen" := VStr "primaryScreen" ]})
              (initialWorld sampleWindow)) as (_ & H & _).
  - reflexivity.
  - repeat apply Forall_cons_2; [..|apply Forall_nil_2]; eexists; reflexivity.
  - exact H.
Defined.

Lemma toggleReport_reply_consumed_once_witness :
  let w1 := exec privacyDashboardGetToggleReportOptions (initialWorld sampleWindow) in
  let w2 := exec (onGetToggleReportOptionsResponse_call (VStr "first")) w1 in
  let w3 := exec (onGetToggleReportOptionsResponse_call (VStr "second")) w2 in
  promises w3 !! 0 = Some (Fulfilled (VStr "first")).
Proof.
  intros w1 w2 w3.
  destruct (toggleReport_reply_consumed_once (initialWorld sampleWindow)
              (VStr "first") [VStr "second"] eq_refl)
    as (pid & Hpid & _ & _ & _ & _ & _ & _ & _ & _ & H).
  injection Hpid as <-. exact H.
Defined.

Lemma readiness_gate_witness :
  let order := [RequiredProtections; RequiredRequestData;
                RequiredLocale; RequiredUpgradedHttps] in
  let w0 := exec getBackgroundTabData (initialWorld sampleWindow) in
  let w3 := deliver_all (I := sampleImports) (take 3 (map sampleRequired order)) w0 in
  let w4 := deliver_all (I := sampleImports) (map sampleRequired order) w0 in
  promises w3 !! 0 = Some Pending
  ∧ promises w4 !! 0 = Some (Fulfilled (VObj (combineSources (fields w4)))).
Proof.
  intros order w0 w3 w4.
  destruct (readiness_gate (I := sampleImports)
              sampleUrl sampleRequestData sampleProtections sampleLocale false
              sampleRequests sampleProtectionsStatus "en" eq_refl eq_refl eq_refl
              order (initialWorld sampleWindow)) as (_ & Hpending & Hready & _).
  - unfold order, all_required. solve_Permutation.
  - reflexivity.
  - split.
    + apply (Hpending 3). lia.
    + apply Hready; [reflexivity|discriminate].
Defined.

(** Three runs against the gate as a four-field test for every order.
    After the protections and the request data alone, a new call of
    [getBackgroundTabData] is resolved at once, with neither [upgradedHttps]
    nor [locale] set.  When the locale completes the four, the gate is open
    but the resolver queued at the start is still waiting.  And when the
    request data come before the protections, that delivery throws, and
    after all four deliveries the gate is shut and the resolver waiting. *)
Lemma readiness_gate_fails :
  let order := [RequiredProtections; RequiredRequestData;
                RequiredUpgradedHttps; RequiredLocale] in
  let order' := [RequiredRequestData; RequiredProtections;
                 RequiredLocale; RequiredUpgradedHttps] in
  let w0 := exec getBackgroundTabData (initialWorld sampleWindow) in
  let w2 := deliver_all (I := sampleImports) (take 2 (map sampleRequired order)) w0 in
  let w4 := deliver_all (I := sampleImports) (map sampleRequired order) w0 in
  let w4' := deliver_all (I := sampleImports) (map sampleRequired order') w0 in
  (order ≡ₚ all_required
   ∧ upgradedHttps (fields w2) = VUndefined
   ∧ locale (fields w2) = None
   ∧ promises (exec getBackgroundTabData w2) !! 1
     = Some (Fulfilled (VObj (combineSources (fields w2))))
   ∧ ready (fields w4) = true
   ∧ promises w4 !! 0 = Some Pending)
  ∧ (order' ≡ₚ all_required
     ∧ result (deliver (I := sampleImports) (sampleRequired RequiredRequestData)) w0
       = Throw (Error "protections status not set")
     ∧ ready (fields w4') = false
     ∧ promises w4' !! 0 = Some Pending).
Proof.
  intros order order' w0 w2 w4 w4'. split; split.
  - unfold order, all_required. solve_Permutation.
  - repeat split; reflexivity.
  - unfold order', all_required. solve_Permutation.
  - repeat split; reflexivity.
Qed.



(** * Further properties *)

Section Aggregator.
Context {I : Imports}.

(** ** The fields as a state machine of their own *)

Lemma deliver_fields (d : Delivery) (w : World) :
  fields (exec (deliver d) w) = fields_after d (fields w).
Proof.
  destruct d as [tabUrl raw|payload|payload|payload|data|data|data|data|data];
    unfold exec; simpl.
  - destruct (protections (fields w)) as [prot|] eqn:Hp.
    + destruct (requestDataSchema raw) as [data|] eqn:Hr.
      * rewrite (onChangeRequestData_valid _ _ _ _ _ Hp Hr).
        apply resolveInitialRender_fields.
      * by rewrite (onChangeRequestData_invalid _ _ _ _ Hp Hr).
    + by rewrite (onChangeRequestData_unset _ _ _ Hp).
  - destruct (protectionsStatusSchema payload) as [prot|] eqn:Hp.
    + rewrite (onChangeProtectionStatus_valid _ _ _ Hp).
      apply resolveInitialRender_fields.
    + unfold onChangeProtectionStatus. by rewrite Hp.
  - destruct (localeSettingsSchema payload) as [l|] eqn:Hl.
    + by rewrite (onChangeLocale_valid _ _ _ Hl).
    + unfold onChangeLocale. by rewrite Hl.
  - destruct (cookiePromptManagementStatusSchema payload) as [c|] eqn:Hc.
    + by rewrite (onChangeConsentManaged_valid _ _ _ Hc).
    + unfold onChangeConsentManaged. by rewrite Hc.
  - done.
  - rewrite onChangeUpgradedHttps_spec. apply resolveInitialRender_fields.
  - by destruct data.
  - done.
  - done.
Qed.

Lemma deliver_all_fields (ds : list Delivery) (w : World) :
  fields (deliver_all ds w) = foldl (λ f d, fields_after d f) (fields w) ds.
Proof.
  revert w. induction ds as [|d ds IH]; intros w; [done|].
  simpl. by rewrite IH, deliver_fields.
Qed.

(** X1. The fields after a sequence of deliveries are determined by the
    fields before and the deliveries: the pending queue, the promises, the
    console, the channel and the window have no influence on them. *)
Theorem fields_independent_of_the_rest (ds : list Delivery) (f : Fields)
    q ps rc ch con win q' ps' rc' ch' con' win' :
  fields (deliver_all ds (mkWorld f q ps rc ch con win))
  = fields (deliver_all ds (mkWorld f q' ps' rc' ch' con' win')).
Proof. by rewrite !deliver_all_fields. Qed.

(** X2. Delivering the same payload to the same entry point a second time
    changes no field: every entry point is idempotent, the merging
    [onChangeConsentManaged] and the throwing ones included. *)
Theorem redelivery_idempotent (d : Delivery) (w : World) :
  fields (exec (deliver d) (exec (deliver d) w)) = fields (exec (deliver d) w).
Proof.
  rewrite !deliver_fields.
  destruct (fields w) as [t pd cd uh p ipu pe c l].
  destruct d as [tabUrl raw|payload|payload|payload|data|data|data|data|data]; simpl.
  - destruct p as [prot|]; [|done]. by destruct (requestDataSchema raw).
  - by destruct (protectionsStatusSchema payload).
  - by destruct (localeSettingsSchema payload).
  - destruct (cookiePromptManagementStatusSchema payload) as [data|]; [|done].
    simpl. by rewrite (assoc_L (∪)), (idemp_L (∪)).
  - done.
  - destruct t as [t|]; [|done]. simpl. by rewrite insert_insert_eq.
  - by destruct data.
  - done.
  - done.
Qed.

(** X3. Deliveries to different entry points commute on the fields, except
    when one is the request data and the other the protections or
    [upgradedHttps], the two values the request data update reads. *)
Theorem independent_deliveries_commute (d1 d2 : Delivery) (w : World) :
  independent d1 d2 = true →
  fields (exec (deliver d2) (exec (deliver d1) w))
  = fields (exec (deliver d1) (exec (deliver d2) w)).
Proof.
  intros Hi. rewrite !deliver_fields.
  destruct (fields w) as [t pd cd uh p ipu pe c l].
  destruct d1 as [u1 r1|p1|p1|p1|x1|x1|x1|x1|x1],
           d2 as [u2 r2|p2|p2|p2|x2|x2|x2|x2|x2];
    try discriminate Hi; clear Hi; simpl;
    repeat match goal with
    | |- context [requestDataSchema ?r] => destruct (requestDataSchema r)
    | |- context [protectionsStatusSchema ?r] => destruct (protectionsStatusSchema r)
    | |- context [localeSettingsSchema ?r] => destruct (localeSettingsSchema r)
    | |- context [cookiePromptManagementStatusSchema ?r] =>
        destruct (cookiePromptManagementStatusSchema r)
    end;
    try (destruct x1; simpl); try (destruct x2; simpl);
    destruct p, t; simpl; done.
Qed.

End Aggregator.

Section Outgoing.
Context {I : Imports}.

(** ** The outgoing messages one by one *)

Ltac run_sender :=
  unfold fetch, privacyDashboardClose, privacyDashboardSubmitBrokenSiteReport,
    privacyDashboardOpenSettings, privacyDashboardSetPermission,
    privacyDashboardSendToggleReport, privacyDashboardRejectToggleReport,
    privacyDashboardSeeWhatIsSent, postMessage, invariant, bind, get, ret,
    throw, modify, has_messageHandlers, has_handler, transport_error, post,
    with_window in *; simpl in *.

Lemma fetch_with_handler (message : Message) (name : string) (w : World) :
  handler_of message = Some name →
  message ≠ FetchToggleReportOptions →
  has_handler name w = true →
  fetch message w = (Return (FetchReturn VUndefined), post name (payload_of message) w).
Proof.
  intros Hn Hm Hh. destruct w as [f q ps rc ch con [[hs|] po slot pw]];
    [|done].
  destruct message; try done; injection Hn as <-;
    run_sender; apply bool_decide_eq_true in Hh;
    rewrite ?bool_decide_eq_true_2 by (done || eauto); simpl;
    rewrite ?bool_decide_eq_true_2 by (done || eauto); done.
Qed.

Lemma fetch_without_handler (message : Message) (name : string) (w : World) :
  handler_of message = Some name →
  message ≠ FetchToggleReportOptions →
  has_handler name w = false →
  fetch message w = (Throw (transport_error name (names_its_handler message) w), w).
Proof.
  intros Hn Hm Hh. destruct w as [f q ps rc ch con [[hs|] po slot pw]].
  - destruct message; try done; injection Hn as <-;
      run_sender; apply bool_decide_eq_false in Hh;
      rewrite ?(bool_decide_eq_true_2 (is_Some (Some hs))) by eauto; simpl;
      rewrite ?bool_decide_eq_false_2 by done; done.
  - destruct message; try done; injection Hn as <-; run_sender;
      rewrite ?bool_decide_eq_false_2 by (by intros [? ?]); done.
Qed.

Lemma toggleReport_without_handler (w : World) :
  has_handler "privacyDashboardGetToggleReportOptions" w = false →
  privacyDashboardGetToggleReportOptions w
  = (Return (length (promises w)),
     mkWorld (fields w) (getBackgroundTabDataPromises w)
       (promises w
          ++ [Rejected (transport_error "privacyDashboardGetToggleReportOptions" true w)])
       (resolveCalls w) (channel w) (console w) (window w)).
Proof.
  intros Hh. destruct w as [f q ps rc ch con [[hs|] po slot pw]];
    unfold privacyDashboardGetToggleReportOptions, newPromise; run_sender.
  - apply bool_decide_eq_false in Hh.
    rewrite ?(bool_decide_eq_true_2 (is_Some (Some hs))) by eauto. simpl.
    rewrite ?bool_decide_eq_false_2 by done. simpl. by rewrite settle_fresh.
  - rewrite ?bool_decide_eq_false_2 by (by intros [? ?]). simpl.
    by rewrite settle_fresh.
Qed.

Lemma fetch_listItem_without_handler (eventOrigin : value) (item : listItem) (w : World) :
  has_handler "privacyDashboardSetProtection" w = false →
  fetch_listItem eventOrigin item w
  = if is_allowlisted item
    then (Throw (Error "Invariant failed: webkit.messageHandlers.privacyDashboardSetProtection required"), w)
    else (Return tt,
          logged (if __playwright (window w) then []
                  else [console_warn "only `allowlisted` is currently supported on macos"]) w).
Proof.
  intros Hh. unfold fetch_listItem, is_allowlisted.
  destruct (String.eqb (list_name item) "allowlisted"); simpl.
  - unfold privacyDashboardSetProtection, bind, get, invariant. by rewrite Hh.
  - unfold bind, get. destruct w as [f q ps rc ch con [mh po slot [|]]]; simpl.
    + unfold ret, logged. simpl. by rewrite app_nil_r.
    + done.
Qed.

(** The loop of the [SetListsMessage] branch when the protection-toggle
    handler is missing: warnings up to the first [allowlisted] entry, where
    it throws. *)
Lemma forEach_listItem_without_handler (eventOrigin : value)
    (lists : list listItem) (w : World) :
  has_handler "privacyDashboardSetProtection" w = false →
  ∃ warnings,
    forEach (fetch_listItem eventOrigin) lists w
    = (if existsb is_allowlisted lists
       then Throw (Error "Invariant failed: webkit.messageHandlers.privacyDashboardSetProtection required")
       else Return tt,
       logged warnings w).
Proof.
  intros Hh. revert w Hh. induction lists as [|item lists IH]; intros w Hh.
  - exists []. unfold logged. destruct w. simpl. unfold ret. by rewrite app_nil_r.
  - simpl. unfold bind at 1.
    rewrite (fetch_listItem_without_handler _ _ _ Hh).
    destruct (is_allowlisted item); simpl.
    + exists []. unfold logged. destruct w. simpl. by rewrite app_nil_r.
    + match goal with |- context [forEach _ lists ?w1] =>
        destruct (IH w1) as [ws E]; [done|] end.
      rewrite E. eexists (_ ++ ws). unfold logged. simpl.
      by rewrite <- app_assoc.
Qed.

Lemma only_posts_and_logs_refl (w : World) : only_posts_and_logs w w.
Proof.
  exists [], []. destruct w as [f q ps rc ch con [mh po slot pw]]. simpl.
  by rewrite !app_nil_r.
Qed.

Lemma only_posts_and_logs_trans (w1 w2 w3 : World) :
  only_posts_and_logs w1 w2 → only_posts_and_logs w2 w3 → only_posts_and_logs w1 w3.
Proof.
  intros (es & ms & ->) (es' & ms' & ->). exists (es ++ es'), (ms ++ ms').
  simpl. by rewrite !app_assoc.
Qed.

Lemma logged_only_logs (es : list logEntry) (w : World) :
  only_posts_and_logs w (logged es w).
Proof.
  exists es, []. unfold logged. destruct w as [f q ps rc ch con [mh po slot pw]].
  simpl. by rewrite app_nil_r.
Qed.

Lemma post_only_posts (name : string) (params : value) (w : World) :
  only_posts_and_logs w (post name params w).
Proof.
  exists [], [(name, params)]. unfold post, with_window.
  destruct w as [f q ps rc ch con [mh po slot pw]]. simpl. by rewrite app_nil_r.
Qed.

Lemma fetch_listItem_frame (eventOrigin : value) (item : listItem) (w : World) :
  only_posts_and_logs w (exec (fetch_listItem eventOrigin item) w).
Proof.
  unfold exec.
  destruct (has_handler "privacyDashboardSetProtection" w) eqn:Hh.
  - unfold fetch_listItem.
    destruct (negb (String.eqb (list_name item) "allowlisted")); simpl.
    + unfold bind, get. destruct (negb (__playwright (window w))); simpl.
      * apply (logged_only_logs [_]).
      * apply only_posts_and_logs_refl.
    + unfold privacyDashboardSetProtection, bind, get, invariant. rewrite Hh.
      simpl. unfold postMessage, bind, get.
      apply has_handler_messageHandlers in Hh as (hs & Hhs & Hin).
      rewrite Hhs, bool_decide_eq_true_2 by done. apply post_only_posts.
  - rewrite (fetch_listItem_without_handler _ _ _ Hh).
    destruct (is_allowlisted item); simpl.
    + apply only_posts_and_logs_refl.
    + apply logged_only_logs.
Qed.

Lemma forEach_listItem_frame (eventOrigin : value) (lists : list listItem) (w : World) :
  only_posts_and_logs w (exec (forEach (fetch_listItem eventOrigin) lists) w).
Proof.
  revert w. induction lists as [|item lists IH]; intros w.
  - apply only_posts_and_logs_refl.
  - unfold exec. simpl. unfold bind at 1.
    pose proof (fetch_listItem_frame eventOrigin item w) as H1. unfold exec in H1.
    destruct (fetch_listItem eventOrigin item w) as [[[]|e] w1]; simpl in *.
    + eapply only_posts_and_logs_trans; [exact H1|]. apply IH.
    + exact H1.
Qed.

(** X4. For every message that goes to one webkit handler, with that
    handler installed: [fetch] posts exactly one message, to that handler,
    carrying the properties of the message, and leaves no line on the console
    and no change in the fields.  For every such message but the
    toggle-report request that is all, and [fetch] is done, with [undefined].
    For the toggle-report request [fetch] is not done: it has stored the
    reply handler and awaits the promise of the request, which is pending.
    When the host replies with [data], that promise is fulfilled with [data]
    and [fetch] goes on to [toggleReportScreenSchema.parse(data)]: it ends
    with the parsed value if the schema takes [data] and with the exception
    of the parser if not, and changes nothing in the state either way. *)
Theorem fetch_posts_exactly_one (message : Message) (name : string) (w : World) :
  handler_of message = Some name →
  has_handler name w = true →
  let w' := exec (fetch message) w in
  posted (window w') = posted (window w) ++ [(name, payload_of message)]
  ∧ fields w' = fields w
  ∧ console w' = console w
  ∧ match message with
    | FetchToggleReportOptions =>
        let pid := length (promises w) in
        result (fetch message) w = Return (FetchAwait pid)
        ∧ promises w' !! pid = Some Pending
        ∧ onGetToggleReportOptionsResponse (window w') = Some pid
        ∧ ∀ data,
            let w'' := exec (onGetToggleReportOptionsResponse_call data) w' in
            promises w'' !! pid = Some (Fulfilled data)
            ∧ exec (fetch_resume data) w'' = w''
            ∧ match toggleReportScreenSchema data with
              | Some parsed => result (fetch_resume data) w'' = Return parsed
              | None => ∃ e, result (fetch_resume data) w'' = Throw e
              end
    | _ => result (fetch message) w = Return (FetchReturn VUndefined)
    end.
Proof.
  intros Hn Hh w'. subst w'. unfold exec, result.
  assert (message = FetchToggleReportOptions ∨ message ≠ FetchToggleReportOptions)
    as [->|Hm] by (destruct message; auto).
  - injection Hn as <-. cbn [fetch]. unfold bind.
    rewrite (privacyDashboardGetToggleReportOptions_spec w Hh). cbn [fst snd].
    split; [done|]. split; [done|]. split; [done|]. split; [done|].
    split; [by apply list_lookup_middle|]. split; [done|].
    intros data. unfold ret. cbn [fst snd].
    rewrite onGetToggleReportOptionsResponse_call_spec. cbn.
    rewrite settle_fresh. split; [by apply list_lookup_middle|].
    unfold fetch_resume. destruct (toggleReportScreenSchema data); cbn; eauto.
  - rewrite (fetch_with_handler _ _ _ Hn Hm Hh). simpl.
    repeat split; try done. by destruct message.
Qed.

(** X5. For every such message, with its handler missing: nothing is
    posted and the window, the fields and the console stay as they were.
    [fetch] throws, an invariant error when there are no handlers at all or
    when the sender checks for its handler, a [TypeError] otherwise; for the
    toggle-report request the error does not escape but rejects the promise
    that [fetch] awaits, and no reply handler is stored. *)
Theorem fetch_without_transport (message : Message) (name : string) (w : World) :
  handler_of message = Some name →
  has_handler name w = false →
  let w' := exec (fetch message) w in
  let e := transport_error name (names_its_handler message) w in
  window w' = window w ∧ fields w' = fields w ∧ console w' = console w
  ∧ match message with
    | FetchToggleReportOptions =>
        result (fetch message) w = Return (FetchAwait (length (promises w)))
        ∧ promises w' = promises w ++ [Rejected e]
    | _ => fetch message w = (Throw e, w)
    end.
Proof.
  intros Hn Hh w' e. subst w' e. unfold exec, result.
  assert (message = FetchToggleReportOptions ∨ message ≠ FetchToggleReportOptions)
    as [->|Hm] by (destruct message; auto).
  - injection Hn as <-. simpl. unfold bind.
    by rewrite (toggleReport_without_handler w Hh).
  - rewrite (fetch_without_handler _ _ _ Hn Hm Hh). by destruct message.
Qed.

(** X6. A [SetListsMessage] when the protection-toggle handler is missing:
    [fetch] posts nothing, and it throws exactly when some entry is
    [allowlisted]; entries of other lists alone only draw warnings. *)
Theorem setLists_without_handler (lists : list listItem) (eventOrigin : value) (w : World) :
  has_handler "privacyDashboardSetProtection" w = false →
  let w' := exec (fetch (SetListsMessage lists eventOrigin)) w in
  result (fetch (SetListsMessage lists eventOrigin)) w
  = (if existsb is_allowlisted lists
     then Throw (Error "Invariant failed: webkit.messageHandlers.privacyDashboardSetProtection required")
     else Return (FetchReturn VUndefined))
  ∧ window w' = window w
  ∧ fields w' = fields w.
Proof.
  intros Hh w'. subst w'. unfold exec, result. simpl. unfold bind.
  destruct (forEach_listItem_without_handler eventOrigin lists w Hh) as [ws E].
  rewrite E. by destruct (existsb is_allowlisted lists).
Qed.

(** What any outgoing message leaves alone. *)
Lemma fetch_frame (message : Message) (w : World) :
  let w' := exec (fetch message) w in
  fields w' = fields w
  ∧ getBackgroundTabDataPromises w' = getBackgroundTabDataPromises w
  ∧ channel w' = channel w
  ∧ resolveCalls w' = resolveCalls w
  ∧ promises w `prefix_of` promises w'
  ∧ messageHandlers (window w') = messageHandlers (window w).
Proof.
  assert (Hframe : ∀ w', only_posts_and_logs w w' →
    fields w' = fields w
    ∧ getBackgroundTabDataPromises w' = getBackgroundTabDataPromises w
    ∧ channel w' = channel w
    ∧ resolveCalls w' = resolveCalls w
    ∧ promises w `prefix_of` promises w'
    ∧ messageHandlers (window w') = messageHandlers (window w)).
  { by intros w' (es & ms & ->). }
  destruct (handler_of message) as [name|] eqn:Hn.
  - assert (message = FetchToggleReportOptions ∨ message ≠ FetchToggleReportOptions)
      as Hcase by (destruct message; auto).
    destruct (has_handler name w) eqn:Hh; destruct Hcase as [->|Hm].
    + injection Hn as <-. unfold exec. simpl. unfold bind.
      rewrite (privacyDashboardGetToggleReportOptions_spec w Hh). simpl.
      repeat split; try done. by apply prefix_app_r.
    + cbv zeta. unfold exec. rewrite (fetch_with_handler _ _ _ Hn Hm Hh).
      apply Hframe, post_only_posts.
    + injection Hn as <-. unfold exec. simpl. unfold bind.
      rewrite (toggleReport_without_handler w Hh). simpl.
      repeat split; try done. by apply prefix_app_r.
    + cbv zeta. unfold exec. rewrite (fetch_without_handler _ _ _ Hn Hm Hh).
      apply Hframe, only_posts_and_logs_refl.
  - destruct message; try discriminate Hn.
    + cbv zeta. apply Hframe. unfold exec. simpl. unfold bind.
      pose proof (forEach_listItem_frame eventOrigin lists w) as H. unfold exec in H.
      by destruct (forEach (fetch_listItem eventOrigin) lists w) as [[[]|e] w1].
    + apply Hframe, only_posts_and_logs_refl.
Qed.

End Outgoing.

Section Actions.
Context {I : Imports}.

(** ** Everything the module can do *)

Lemma privacyDashboardOpenUrlInNewTab_frame (args : value) (w : World) :
  only_posts_and_logs w (exec (privacyDashboardOpenUrlInNewTab args) w).
Proof.
  unfold exec, privacyDashboardOpenUrlInNewTab, postMessage_callee, postMessage,
    getProp, invariant, has_messageHandlers, bind, get, ret, throw, modify.
  destruct w as [f q ps rc ch con [[hs|] po slot pw]]; simpl.
  - destruct (bool_decide ("privacyDashboardOpenUrlInNewTab" ∈ hs)) eqn:Hin; simpl;
      [|apply only_posts_and_logs_refl].
    destruct args; simpl; rewrite ?Hin; simpl;
      first [apply only_posts_and_logs_refl
            | eexists [], [_]; unfold with_window; simpl; by rewrite app_nil_r].
  - apply only_posts_and_logs_refl.
Qed.

Lemma privacyDashboardSetSize_frame (isIOS : bool) (payload : value) (w : World) :
  only_posts_and_logs w (exec (privacyDashboardSetSize isIOS payload) w).
Proof.
  unfold exec, privacyDashboardSetSize, postMessage, invariant,
    has_messageHandlers, bind, get, ret, throw, modify.
  destruct isIOS; simpl; [apply only_posts_and_logs_refl|].
  destruct w as [f q ps rc ch con [[hs|] po slot pw]]; simpl.
  - destruct (bool_decide ("privacyDashboardSetSize" ∈ hs)); simpl;
      first [apply only_posts_and_logs_refl
            | eexists [], [_]; unfold with_window; simpl; by rewrite app_nil_r].
  - apply only_posts_and_logs_refl.
Qed.

Lemma firstRenderComplete_frame (isIOS : bool) (height : value) (w : World) :
  only_posts_and_logs w (exec (firstRenderComplete isIOS height) w).
Proof.
  unfold firstRenderComplete.
  destruct (String.eqb (typeof height) "number").
  - apply privacyDashboardSetSize_frame.
  - apply only_posts_and_logs_refl.
Qed.

Lemma only_posts_and_logs_fields (w w' : World) :
  only_posts_and_logs w w' → fields w' = fields w.
Proof. by intros (es & ms & ->). Qed.

(** Only a delivery changes the fields. *)
Lemma act_fields (a : Action) (w : World) :
  fields (act a w)
  = match a with
    | ADeliver d => fields_after d (fields w)
    | _ => fields w
    end.
Proof.
  destruct a as [d| |message|data| |href|isIOS height|isIOS height]; simpl.
  - apply deliver_fields.
  - unfold exec. rewrite getBackgroundTabData_spec.
    by destruct (trackerBlockingData (fields w)).
  - apply fetch_frame.
  - unfold exec. rewrite onGetToggleReportOptionsResponse_call_spec.
    by destruct (onGetToggleReportOptionsResponse (window w)).
  - done.
  - apply only_posts_and_logs_fields, privacyDashboardOpenUrlInNewTab_frame.
  - apply only_posts_and_logs_fields, privacyDashboardSetSize_frame.
  - apply only_posts_and_logs_fields, firstRenderComplete_frame.
Qed.

Lemma act_all_snoc (acts : list Action) (a : Action) (w : World) :
  act_all (acts ++ [a]) w = act a (act_all acts w).
Proof. unfold act_all. by rewrite foldl_app. Qed.

(** X7. In every state the module can reach from its initial one,
    [trackerBlockingData] is set only if [protections] is. *)
Theorem trackerBlockingData_needs_protections (acts : list Action) (win : Window) :
  is_Some (trackerBlockingData (fields (act_all acts (initialWorld win)))) →
  is_Some (protections (fields (act_all acts (initialWorld win)))).
Proof.
  induction acts as [|a acts IH] using rev_ind.
  - by intros [? ?].
  - rewrite act_all_snoc, act_fields.
    destruct a as [d| | | | | | |]; try exact IH.
    destruct (fields (act_all acts (initialWorld win))) as [t pd cd uh p ipu pe c l].
    simpl in IH.
    destruct d as [tabUrl raw|payload|payload|payload|data|data|data|data|data];
      simpl; try exact IH.
    + destruct p as [prot|]; [|exact IH]. destruct (requestDataSchema raw); eauto.
    + destruct (protectionsStatusSchema payload); eauto.
    + by destruct (localeSettingsSchema payload).
    + by destruct (cookiePromptManagementStatusSchema payload).
    + intros Ht. apply IH. by destruct t.
    + by destruct data.
Qed.

(** X8. No action unsets [protections], [trackerBlockingData] or [locale],
    and none removes a key from the consent accumulator. *)
Theorem set_fields_stay_set (acts : list Action) (w : World) :
  let f := fields w in
  let f' := fields (act_all acts w) in
  (is_Some (protections f) → is_Some (protections f'))
  ∧ (is_Some (trackerBlockingData f) → is_Some (trackerBlockingData f'))
  ∧ (is_Some (locale f) → is_Some (locale f'))
  ∧ dom (cookiePromptManagementStatus f) ⊆ dom (cookiePromptManagementStatus f').
Proof.
  induction acts as [|a acts IH] using rev_ind; [done|].
  cbv zeta in *. rewrite act_all_snoc, act_fields.
  destruct a as [d| | | | | | |]; try exact IH.
  destruct IH as (Hp & Ht & Hl & Hc).
  destruct (fields (act_all acts w)) as [t pd cd uh p ipu pe c l].
  simpl in *.
  destruct d as [tabUrl raw|payload|payload|payload|data|data|data|data|data];
    simpl; try done.
  - destruct p as [prot|]; [|done]. destruct (requestDataSchema raw); [|done].
    simpl. eauto.
  - destruct (protectionsStatusSchema payload); [|done]. simpl. eauto.
  - destruct (localeSettingsSchema payload); [|done]. simpl. eauto.
  - destruct (cookiePromptManagementStatusSchema payload) as [data|]; [|done].
    simpl. repeat split; try done. rewrite dom_union_L. set_solver.
  - repeat split; try done. intros H. apply Ht in H. by destruct t.
  - by destruct data.
Qed.

(** X9. Once the gate is open, an action leaves it open unless it is an
    [upgradedHttps] delivery whose value is not a boolean, which shuts it
    again; so the gate stays open along every sequence without such a
    delivery. *)
Theorem gate_open_unless_upgradedHttps_not_boolean (w : World) :
  ready (fields w) = true →
  (∀ a, ready (fields (act a w)) = keeps_gate a)
  ∧ (∀ acts, forallb keeps_gate acts = true → ready (fields (act_all acts w)) = true).
Proof.
  assert (Hstep : ∀ w a, ready (fields w) = true →
            ready (fields (act a w)) = keeps_gate a).
  { clear w. intros w a Hr. rewrite act_fields.
    destruct a as [d| | | | | | |]; try exact Hr.
    destruct (fields w) as [t pd cd uh p ipu pe c l].
    unfold ready, isLocaleSet, isUpgradedHttpsSet, isIsProtectedSet,
      isTrackerBlockingDataSet in *. simpl in *.
    destruct l, p, t, uh; try discriminate Hr;
      destruct d as [tabUrl raw|payload|payload|payload|data|data|data|data|data];
      simpl; try done.
    - by destruct (requestDataSchema raw).
    - by destruct (protectionsStatusSchema payload).
    - by destruct (localeSettingsSchema payload).
    - by destruct (cookiePromptManagementStatusSchema payload).
    - by destruct data.
    - by destruct data. }
  intros Hr. split; [intros a; by apply Hstep|].
  intros acts. induction acts as [|a acts IH] using rev_ind; [done|].
  rewrite forallb_app. simpl. rewrite andb_true_r.
  intros [Hacts Ha]%andb_prop. rewrite act_all_snoc, Hstep; auto.
Qed.




End Actions.

Section Requests.

(** ** Overlapping toggle-report requests *)

(** X11. A second toggle-report request made before the first was answered
    takes over the reply handler: the first reply fulfils the promise of the
    second request, and no reply ever settles the promise of the first. *)
Theorem second_request_orphans_the_first (w : World) (replies : list value) :
  has_handler "privacyDashboardGetToggleReportOptions" w = true →
  let pid1 := length (promises w) in
  let pid2 := S (length (promises w)) in
  let w1 := exec privacyDashboardGetToggleReportOptions w in
  let w2 := exec privacyDashboardGetToggleReportOptions w1 in
  let w3 := foldl (λ w d, exec (onGetToggleReportOptionsResponse_call d) w) w2 replies in
  result privacyDashboardGetToggleReportOptions w = Return pid1
  ∧ result privacyDashboardGetToggleReportOptions w1 = Return pid2
  ∧ promises w3 !! pid1 = Some Pending
  ∧ promises w3 !! pid2 = Some match replies with
                               | [] => Pending
                               | data :: _ => Fulfilled data
                               end.
Proof.
  intros Hh pid1 pid2 w1 w2 w3.
  pose proof (privacyDashboardGetToggleReportOptions_spec w Hh) as E1.
  assert (Hw1 : w1 = snd (privacyDashboardGetToggleReportOptions w)) by done.
  rewrite E1 in Hw1. simpl in Hw1.
  assert (Hh1 : has_handler "privacyDashboardGetToggleReportOptions" w1 = true)
    by (by rewrite Hw1).
  pose proof (privacyDashboardGetToggleReportOptions_spec w1 Hh1) as E2.
  assert (Hw2 : w2 = snd (privacyDashboardGetToggleReportOptions w1)) by done.
  rewrite E2 in Hw2. rewrite Hw1 in Hw2. simpl in Hw2.
  rewrite length_app in Hw2. simpl in Hw2.
  unfold result. rewrite E1, E2. rewrite Hw1 at 1. simpl. rewrite length_app. simpl.
  split; [done|]. split; [f_equal; subst pid2; lia|].
  assert (Hp1 : promises w2 !! pid1 = Some Pending).
  { rewrite Hw2. simpl. rewrite lookup_app_l by (rewrite length_app; simpl; lia).
    by apply list_lookup_middle. }
  assert (Hp2 : promises w2 !! pid2 = Some Pending).
  { rewrite Hw2. simpl. apply list_lookup_middle. rewrite length_app. simpl.
    subst pid2. lia. }
  destruct replies as [|data replies]; [done|].
  assert (Hslot : onGetToggleReportOptionsResponse (window w2) = Some pid2).
  { rewrite Hw2. simpl. f_equal. subst pid2. lia. }
  assert (Hw3 : promises w3 = settle pid2 (Fulfilled data) (promises w2)).
  { subst w3. simpl. rewrite replies_without_handler.
    - unfold exec. by rewrite onGetToggleReportOptionsResponse_call_spec, Hslot.
    - unfold exec. by rewrite onGetToggleReportOptionsResponse_call_spec, Hslot. }
  rewrite Hw3. split.
  - rewrite settle_lookup_ne; [done|]. subst pid1 pid2. lia.
  - by apply settle_lookup_pending.
Qed.

End Requests.

Section Snapshot.
Context {I : Imports}.

(** ** What a snapshot shows *)

(** The lookups of the [tab] of a snapshot. *)
Lemma tab_lookup (f : Fields) :
  let tab := snapshot_tab (combineSources f) in
  let t := default ∅ (trackerBlockingData f) in
  tab !! "isPendingUpdates" = Some (isPendingUpdates f)
  ∧ tab !! "parentEntity" = Some (parentEntity f)
  ∧ tab !! "cookiePromptManagementStatus" = Some (VObj (cookiePromptManagementStatus f))
  ∧ tab !! "platformLimitations" = Some (VBool true)
  ∧ tab !! "locale" = Some (of_option VStr (locale f))
  ∧ tab !! "permissions"
    = (if truthy (permissionsData f) then Some (permissionsData f)
       else t !! "permissions")
  ∧ tab !! "certificate"
    = (if truthy (certificateData f) then Some (certificateData f)
       else t !! "certificate")
  ∧ ∀ k, k ∉ overlay_names → tab !! k = t !! k.
Proof.
  intros tab t. subst tab t.
  unfold snapshot_tab, combineSources, Object_assign. rewrite lookup_singleton_eq.
  simpl. rewrite map_union_empty.
  set (overlay := <["isPendingUpdates":=isPendingUpdates f]> _).
  assert (Hover : ∀ k v, overlay !! k = Some v →
    ((if truthy (certificateData f) then {["certificate" := certificateData f]} else ∅)
     ∪ ((if truthy (permissionsData f) then {["permissions" := permissionsData f]} else ∅)
        ∪ (overlay ∪ default ∅ (trackerBlockingData f)))) !! k = Some v
    ∨ k = "permissions" ∨ k = "certificate").
  { intros k v Hk.
    destruct (decide (k = "permissions")) as [->|Hp]; [auto|].
    destruct (decide (k = "certificate")) as [->|Hc]; [auto|]. left.
    rewrite lookup_union_r, lookup_union_r.
    - by apply lookup_union_Some_l.
    - destruct (truthy (permissionsData f)); [by rewrite lookup_singleton_ne|done].
    - destruct (truthy (certificateData f)); [by rewrite lookup_singleton_ne|done]. }
  assert (Hget : ∀ k v, k ≠ "permissions" → k ≠ "certificate" →
    overlay !! k = Some v →
    ((if truthy (certificateData f) then {["certificate" := certificateData f]} else ∅)
     ∪ ((if truthy (permissionsData f) then {["permissions" := permissionsData f]} else ∅)
        ∪ (overlay ∪ default ∅ (trackerBlockingData f)))) !! k = Some v).
  { intros k v Hp Hc Hk. by destruct (Hover k v Hk) as [?|[?|?]]. }
  assert (Hnone : ∀ k, k ∉ ["isPendingUpdates"; "parentEntity";
      "cookiePromptManagementStatus"; "platformLimitations"; "locale"] →
    overlay !! k = None).
  { intros k Hk. subst overlay.
    repeat (rewrite lookup_insert_ne by (intros <-; apply Hk; by repeat constructor)).
    done. }
  assert (Hcert : ∀ k, k ≠ "certificate" →
    (if truthy (certificateData f) then {["certificate" := certificateData f]}
     else (∅ : gmap string value)) !! k = None).
  { intros k Hk. destruct (truthy (certificateData f)); [|done].
    by rewrite lookup_singleton_ne. }
  assert (Hperm : ∀ k, k ≠ "permissions" →
    (if truthy (permissionsData f) then {["permissions" := permissionsData f]}
     else (∅ : gmap string value)) !! k = None).
  { intros k Hk. destruct (truthy (permissionsData f)); [|done].
    by rewrite lookup_singleton_ne. }
  repeat split.
  1-5: by apply Hget.
  - rewrite lookup_union_r by (by apply Hcert).
    destruct (truthy (permissionsData f)).
    + apply lookup_union_Some_l. by rewrite lookup_singleton_eq.
    + rewrite lookup_union_r by done. rewrite lookup_union_r; [done|].
      apply Hnone. intros H. repeat (apply elem_of_cons in H as [?|H]; [done|]).
      inversion H.
  - destruct (truthy (certificateData f)).
    + apply lookup_union_Some_l. by rewrite lookup_singleton_eq.
    + rewrite lookup_union_r by done.
      rewrite lookup_union_r by (by apply Hperm).
      rewrite lookup_union_r; [done|].
      apply Hnone. intros H. repeat (apply elem_of_cons in H as [?|H]; [done|]).
      inversion H.
  - intros k Hk. unfold overlay_names in Hk.
    assert (k ≠ "certificate") by (intros ->; apply Hk; by repeat constructor).
    assert (k ≠ "permissions") by (intros ->; apply Hk; by repeat constructor).
    rewrite lookup_union_r by (by apply Hcert).
    rewrite lookup_union_r by (by apply Hperm).
    rewrite map_union_empty. rewrite lookup_union_r; [done|].
    apply Hnone. intros H'. apply Hk.
    repeat (apply elem_of_cons in H' as [->|H']; [by repeat constructor|]).
    inversion H'.
Qed.

(** X12. The [tab] of a snapshot, property by property.  The five overlay
    properties show the module variables, undefined ones included, whatever
    [trackerBlockingData] holds under those names; [permissions] and
    [certificate] show the variable when it is truthy and otherwise what
    [trackerBlockingData] holds; every other property is the one of
    [trackerBlockingData]. *)
Theorem snapshot_lookup (f : Fields) :
  let tab := snapshot_tab (combineSources f) in
  let t := default ∅ (trackerBlockingData f) in
  tab !! "isPendingUpdates" = Some (isPendingUpdates f)
  ∧ tab !! "parentEntity" = Some (parentEntity f)
  ∧ tab !! "cookiePromptManagementStatus" = Some (VObj (cookiePromptManagementStatus f))
  ∧ tab !! "platformLimitations" = Some (VBool true)
  ∧ tab !! "locale" = Some (of_option VStr (locale f))
  ∧ tab !! "permissions"
    = (if truthy (permissionsData f) then Some (permissionsData f)
       else t !! "permissions")
  ∧ tab !! "certificate"
    = (if truthy (certificateData f) then Some (certificateData f)
       else t !! "certificate")
  ∧ ∀ k, k ∉ overlay_names → tab !! k = t !! k.
Proof. exact (tab_lookup f). Qed.

(** X13. The certificate data needs an object.  Called with [undefined] or
    with [null], [onChangeCertificateData] throws a [TypeError], in both
    cases before it assigns anything: the whole state is as it was, channel
    included.  Called with an object that has no [secCertificateViewModels],
    it stores [undefined], and the snapshot falls back to the [certificate]
    of [trackerBlockingData]. *)
Theorem certificateData_needs_an_object (w : World) :
  result (onChangeCertificateData VUndefined) w
  = Throw (TypeError "Cannot read properties of undefined (reading 'secCertificateViewModels')")
  ∧ exec (onChangeCertificateData VUndefined) w = w
  ∧ result (onChangeCertificateData VNull) w
    = Throw (TypeError "Cannot read properties of null (reading 'secCertificateViewModels')")
  ∧ exec (onChangeCertificateData VNull) w = w
  ∧ ∀ o : gmap string value, o !! "secCertificateViewModels" = None →
      let w' := exec (onChangeCertificateData (VObj o)) w in
      certificateData (fields w') = VUndefined
      ∧ snapshot_tab (combineSources (fields w')) !! "certificate"
        = default ∅ (trackerBlockingData (fields w)) !! "certificate".
Proof.
  split; [done|]. split; [done|]. split; [done|]. split; [done|].
  intros o Ho w'. subst w'. split.
  - unfold exec, onChangeCertificateData, getProp, bind, ret. simpl.
    by rewrite Ho.
  - destruct (tab_lookup
      (fields (exec (onChangeCertificateData (VObj o)) w))) as (_&_&_&_&_&_&Hc&_).
    rewrite Hc. unfold exec, onChangeCertificateData, getProp, bind, ret. simpl.
    by rewrite Ho.
Qed.

(** ** What the channel hears *)

Lemma resolveInitialRender_channel (w : World) :
  channel (exec resolveInitialRender w)
  = (λ sent, sent ++ (if ready (fields w) then ["updateTabData"] else []))
    <$> channel w.
Proof.
  unfold exec. rewrite resolveInitialRender_spec.
  destruct (ready (fields w)); simpl; [done|].
  destruct (channel w); simpl; [|done]. by rewrite app_nil_r.
Qed.

(** X14. A delivery sends the channel at most one message, always
    [updateTabData]: the entry points that end in [resolveInitialRender]
    send it when they get that far and leave the gate open, the others when
    they take their payload.  A channel that is not attached stays so. *)
Theorem channel_notifications (d : Delivery) (w : World) :
  channel (exec (deliver d) w)
  = (λ sent, sent ++ (if notifies d w then ["updateTabData"] else []))
    <$> channel w.
Proof.
  assert (Hnil : channel w = (λ sent : list string, sent ++ []) <$> channel w).
  { destruct (channel w); simpl; [|done]. by rewrite app_nil_r. }
  destruct d as [tabUrl raw|payload|payload|payload|data|data|data|data|data];
    unfold notifies; try (unfold accepted); unfold triggers.
  - destruct (protections (fields w)) as [prot|] eqn:Hp.
    + rewrite (bool_decide_eq_true_2 (is_Some (Some prot))) by eauto.
      destruct (requestDataSchema raw) as [data|] eqn:Hr.
      * rewrite bool_decide_eq_true_2 by eauto. simpl.
        unfold exec. rewrite (onChangeRequestData_valid _ _ _ _ _ Hp Hr).
        match goal with |- context [resolveInitialRender ?w0] =>
          pose proof (resolveInitialRender_channel w0) as Hc;
          destruct (resolveInitialRender_fields w0) as [_ Hf] end.
        unfold exec in Hc, Hf. by rewrite Hc, Hf.
      * rewrite bool_decide_eq_false_2 by (by intros [? ?]). simpl.
        unfold exec. by rewrite (onChangeRequestData_invalid _ _ _ _ Hp Hr).
    + rewrite bool_decide_eq_false_2 by (by intros [? ?]). simpl.
      unfold exec. by rewrite (onChangeRequestData_unset _ _ _ Hp).
  - destruct (protectionsStatusSchema payload) as [prot|] eqn:Hp.
    + rewrite bool_decide_eq_true_2 by eauto. simpl.
      unfold exec. rewrite (onChangeProtectionStatus_valid _ _ _ Hp).
      match goal with |- context [resolveInitialRender ?w0] =>
        pose proof (resolveInitialRender_channel w0) as Hc;
        destruct (resolveInitialRender_fields w0) as [_ Hf] end.
      unfold exec in Hc, Hf. by rewrite Hc, Hf.
    + rewrite bool_decide_eq_false_2 by (by intros [? ?]). simpl.
      unfold exec, onChangeProtectionStatus. by rewrite Hp.
  - unfold exec. simpl. unfold onChangeLocale.
    destruct (localeSettingsSchema payload) as [l|] eqn:Hl.
    + by rewrite bool_decide_eq_true_2 by eauto.
    + by rewrite bool_decide_eq_false_2 by (by intros [? ?]).
  - unfold exec. simpl. unfold onChangeConsentManaged.
    destruct (cookiePromptManagementStatusSchema payload) as [c|] eqn:Hc.
    + by rewrite bool_decide_eq_true_2 by eauto.
    + by rewrite bool_decide_eq_false_2 by (by intros [? ?]).
  - done.
  - simpl. unfold exec. rewrite onChangeUpgradedHttps_spec.
    match goal with |- context [resolveInitialRender ?w0] =>
      pose proof (resolveInitialRender_channel w0) as Hc;
      destruct (resolveInitialRender_fields w0) as [_ Hf] end.
    unfold exec in Hc, Hf. by rewrite Hc, Hf.
  - by destruct data.
  - done.
  - done.
Qed.

(** ** The pending queue, again *)

Lemma getBackgroundTabData_repeated (n : nat) (w : World) :
  trackerBlockingData (fields w) = None →
  act_all (replicate n AGetBackgroundTabData) w
  = mkWorld (fields w)
      (getBackgroundTabDataPromises w ++ seq (length (promises w)) n)
      (promises w ++ replicate n Pending) (resolveCalls w)
      (channel w) (console w) (window w).
Proof.
  revert w. induction n as [|n IH]; intros w Ht.
  - destruct w. simpl. by rewrite !app_nil_r.
  - simpl. unfold exec. rewrite getBackgroundTabData_spec, Ht. simpl.
    rewrite IH by done. simpl. rewrite length_app. simpl.
    rewrite <- !app_assoc. simpl. by rewrite Nat.add_1_r.
Qed.

(** X15. Waiters are served first come, first served.  After [n] calls of
    [getBackgroundTabData] while [trackerBlockingData] is unset, the queue
    holds their resolvers in the order of the calls; and a delivery that
    reaches [resolveInitialRender] with the gate open calls every queued
    resolver once, in queue order, each with the snapshot of the fields the
    delivery left. *)
Theorem waiters_resolved_in_order (n : nat) (d : Delivery) (w : World) :
  trackerBlockingData (fields w) = None →
  let w1 := act_all (replicate n AGetBackgroundTabData) w in
  let w2 := exec (deliver d) w1 in
  let queue := getBackgroundTabDataPromises w ++ seq (length (promises w)) n in
  triggers d w1 = true →
  ready (fields w2) = true →
  getBackgroundTabDataPromises w1 = queue
  ∧ resolveCalls w2
    = resolveCalls w ++ map (λ pid, (pid, VObj (combineSources (fields w2)))) queue.
Proof.
  intros Ht w1 w2 queue Htr Hr.
  assert (Hw1 : w1 = mkWorld (fields w) queue (promises w ++ replicate n Pending)
                       (resolveCalls w) (channel w) (console w) (window w))
    by (by apply getBackgroundTabData_repeated).
  split; [by rewrite Hw1|].
  destruct (deliver_promises d w1) as [_ Hps]. fold w2 in Hps.
  rewrite Htr, Hr in Hps. simpl in Hps. destruct Hps as [_ ->].
  by rewrite Hw1.
Qed.

Lemma settle_all_length (q : list nat) (v : value) (ps : list pstate) :
  length (settle_all q v ps) = length ps.
Proof.
  revert ps. induction q as [|pid q IH]; intros ps; [done|].
  simpl. rewrite IH. unfold settle.
  destruct (ps !! pid) as [[]|]; by rewrite ?length_insert.
Qed.

Lemma deliver_window (d : Delivery) (w : World) :
  window (exec (deliver d) w) = window w.
Proof.
  assert (Hrir : ∀ w0, window (exec resolveInitialRender w0) = window w0).
  { intros w0. unfold exec. rewrite resolveInitialRender_spec.
    by destruct (ready (fields w0)). }
  unfold exec in Hrir.
  destruct d as [tabUrl raw|payload|payload|payload|data|data|data|data|data];
    unfold exec; simpl.
  - destruct (protections (fields w)) as [prot|] eqn:Hp.
    + destruct (requestDataSchema raw) as [data|] eqn:Hr.
      * rewrite (onChangeRequestData_valid _ _ _ _ _ Hp Hr). by rewrite Hrir.
      * by rewrite (onChangeRequestData_invalid _ _ _ _ Hp Hr).
    + by rewrite (onChangeRequestData_unset _ _ _ Hp).
  - unfold onChangeProtectionStatus.
    destruct (protectionsStatusSchema payload); [|done].
    unfold bind, update_fields, modify. simpl. by rewrite Hrir.
  - unfold onChangeLocale. by destruct (localeSettingsSchema payload).
  - unfold onChangeConsentManaged.
    by destruct (cookiePromptManagementStatusSchema payload).
  - done.
  - rewrite onChangeUpgradedHttps_spec. by rewrite Hrir.
  - by destruct data.
  - done.
  - done.
Qed.

(** X16. The incoming side never reaches out: no sequence of deliveries
    posts a message, touches the reply handler or the installed handlers,
    adds or removes a promise, or changes the pending queue. *)
Theorem deliveries_leave_the_bridge_alone (ds : list Delivery) (w : World) :
  window (deliver_all ds w) = window w
  ∧ getBackgroundTabDataPromises (deliver_all ds w) = getBackgroundTabDataPromises w
  ∧ length (promises (deliver_all ds w)) = length (promises w).
Proof.
  induction ds as [|d ds IH] using rev_ind; [done|].
  rewrite deliver_all_snoc. destruct IH as (Hw & Hq & Hl).
  rewrite deliver_window, Hw. split; [done|].
  destruct (deliver_promises d (deliver_all ds w)) as [Hq' Hps].
  rewrite Hq', Hq. split; [done|].
  destruct (triggers d _ && ready _); destruct Hps as [-> _];
    by rewrite ?settle_all_length.
Qed.

(** X17. Without a locale nothing is flushed: while [locale] is unset and
    no delivery brings one that the schema accepts, no resolver is called
    and no promise settled, whatever else is delivered. *)
Theorem no_flush_without_locale (ds : list Delivery) (w : World) :
  locale (fields w) = None →
  Forall (λ d, ∀ payload, d = Locale payload → localeSettingsSchema payload = None) ds →
  locale (fields (deliver_all ds w)) = None
  ∧ promises (deliver_all ds w) = promises w
  ∧ resolveCalls (deliver_all ds w) = resolveCalls w.
Proof.
  intros Hl. induction ds as [|d ds IH] using rev_ind; intros Hds; [done|].
  apply Forall_app in Hds as [Hds Hd]. apply Forall_cons in Hd as [Hd _].
  rewrite deliver_all_snoc. destruct (IH Hds) as (Hl' & Hp & Hrc).
  assert (Hl'' : locale (fields (exec (deliver d) (deliver_all ds w))) = None).
  { rewrite deliver_fields.
    destruct (fields (deliver_all ds w)) as [t pd cd uh p ipu pe c l].
    simpl in Hl'. subst l.
    destruct d as [tabUrl raw|payload|payload|payload|data|data|data|data|data];
      simpl; try done.
    - destruct p; [|done]. by destruct (requestDataSchema raw).
    - by destruct (protectionsStatusSchema payload).
    - by rewrite (Hd payload eq_refl).
    - by destruct (cookiePromptManagementStatusSchema payload).
    - by destruct data. }
  split; [done|].
  destruct (deliver_promises d (deliver_all ds w)) as [_ Hps].
  assert (ready (fields (exec (deliver d) (deliver_all ds w))) = false) as Hr.
  { unfold ready, isLocaleSet. by rewrite Hl''. }
  rewrite Hr, andb_false_r in Hps. destruct Hps as [-> ->]. done.
Qed.

End Snapshot.

Section Senders.

(** ** The senders outside [fetch] *)

Lemma send_closed_form (name : string) (params : value) (w : World) :
  (w0 <- get;;
   invariant (has_messageHandlers w0) "webkit.messageHandlers required";;;
   postMessage name params)%js w
  = if has_handler name w
    then (Return tt, post name params w)
    else (Throw (transport_error name false w), w).
Proof.
  unfold postMessage, invariant, has_messageHandlers, has_handler,
    transport_error, post, with_window, bind, get, ret, throw, modify.
  destruct w as [f q ps rc ch con [[hs|] po slot pw]]; simpl; [|done].
  by destruct (bool_decide (name ∈ hs)).
Qed.

(** X18. The size reports.  [firstRenderComplete] and the mutation observer
    callback post one [privacyDashboardSetSize] message carrying the height,
    the former only for a height that is a number.  On iOS neither does
    anything, handlers or not; elsewhere a missing handler makes them throw
    and post nothing. *)
Theorem size_reports (isIOS : bool) (height : value) (w : World) :
  let report :=
    if has_handler "privacyDashboardSetSize" w
    then (Return tt, post "privacyDashboardSetSize" (VObj {[ "height" := height ]}) w)
    else (Throw (transport_error "privacyDashboardSetSize" false w), w) in
  mutationObserverCallback isIOS height w
  = (if isIOS then (Return tt, w) else report)
  ∧ firstRenderComplete isIOS height w
    = (if negb isIOS && String.eqb (typeof height) "number"
       then report else (Return tt, w)).
Proof.
  intros report. subst report.
  unfold firstRenderComplete, mutationObserverCallback, privacyDashboardSetSize.
  destruct isIOS; simpl; unfold ret.
  - split; [done|]. by destruct height.
  - rewrite send_closed_form. split; [done|]. destruct height; simpl; try done.
    apply send_closed_form.
Qed.

(** X19. Opening a link.  The global opener listener posts one
    [privacyDashboardOpenUrlInNewTab] message with the link as [url]; with
    the handler missing it throws and posts nothing.  Called directly with
    [undefined] or [null], [privacyDashboardOpenUrlInNewTab] throws as well,
    and in no case does it post. *)
Theorem links_open_in_new_tab (href : value) (w : World) :
  globalOpenerListener href w
  = (if has_handler "privacyDashboardOpenUrlInNewTab" w
     then (Return tt,
           post "privacyDashboardOpenUrlInNewTab" (VObj {[ "url" := href ]}) w)
     else (Throw (transport_error "privacyDashboardOpenUrlInNewTab" false w), w))
  ∧ (∃ e, privacyDashboardOpenUrlInNewTab VUndefined w = (Throw e, w))
  ∧ (∃ e, privacyDashboardOpenUrlInNewTab VNull w = (Throw e, w)).
Proof.
  unfold globalOpenerListener, privacyDashboardOpenUrlInNewTab, postMessage_callee,
    postMessage, getProp, invariant, has_messageHandlers, has_handler,
    transport_error, post, with_window, bind, get, ret, throw, modify.
  destruct w as [f q ps rc ch con [[hs|] po slot pw]]; simpl.
  - destruct (bool_decide ("privacyDashboardOpenUrlInNewTab" ∈ hs)) eqn:Hin; simpl.
    + rewrite lookup_singleton_eq. simpl. rewrite Hin. eauto.
    + eauto.
  - eauto.
Qed.

End Senders.

Section Separation.
Context {I : Imports}.

(** ** The two directions do not mix *)

(** X20. The outgoing side never reaches in: no sequence of outgoing
    messages, size reports or opened links, whether they are posted or
    throw, changes a field, the pending queue or the channel, calls a
    resolver, or changes a promise that exists. *)
Theorem outgoing_leaves_the_aggregator_alone (acts : list Action) (w : World) :
  forallb (λ a, match a with
                | AFetch _ | AOpenUrl _ | ASetSize _ _ | AFirstRender _ _ => true
                | _ => false
                end) acts = true →
  let w' := act_all acts w in
  fields w' = fields w
  ∧ getBackgroundTabDataPromises w' = getBackgroundTabDataPromises w
  ∧ channel w' = channel w
  ∧ resolveCalls w' = resolveCalls w
  ∧ promises w `prefix_of` promises w'.
Proof.
  induction acts as [|a acts IH] using rev_ind; [done|].
  rewrite forallb_app. simpl. rewrite andb_true_r.
  intros [Hacts Ha]%andb_prop. cbv zeta. rewrite act_all_snoc.
  destruct (IH Hacts) as (Hf & Hq & Hc & Hr & Hp).
  assert (Hframe : ∀ w', only_posts_and_logs (act_all acts w) w' →
    fields w' = fields w
    ∧ getBackgroundTabDataPromises w' = getBackgroundTabDataPromises w
    ∧ channel w' = channel w
    ∧ resolveCalls w' = resolveCalls w
    ∧ promises w `prefix_of` promises w').
  { intros w' (es & ms & ->). simpl. by rewrite Hf, Hq, Hc, Hr. }
  destruct a as [d| |message|data| |href|isIOS height|isIOS height];
    try discriminate Ha; simpl.
  - destruct (fetch_frame message (act_all acts w)) as (Hf' & Hq' & Hc' & Hr' & Hp' & _).
    rewrite Hf', Hq', Hc', Hr', Hf, Hq, Hc, Hr. repeat split; try done.
    by etrans.
  - apply Hframe, privacyDashboardOpenUrlInNewTab_frame.
  - apply Hframe, privacyDashboardSetSize_frame.
  - apply Hframe, firstRenderComplete_frame.
Qed.

End Separation.

(** * Further concrete runs *)

Lemma independent_deliveries_commute_witness :
  fields (exec (deliver (I := sampleImports) (RequestData sampleUrl sampleRequestData))
            (exec (deliver (I := sampleImports) (Locale sampleLocale)) sampleTracked))
  = fields (exec (deliver (I := sampleImports) (Locale sampleLocale))
              (exec (deliver (I := sampleImports) (RequestData sampleUrl sampleRequestData))
                    sampleTracked)).
Proof.
  apply (independent_deliveries_commute (I := sampleImports)). reflexivity.
Defined.

Lemma trackerBlockingData_needs_protections_witness :
  is_Some (protections (fields (act_all (I := sampleImports)
    [ADeliver (ProtectionStatus sampleProtections);
     ADeliver (RequestData sampleUrl sampleRequestData)]
    (initialWorld sampleWindow)))).
Proof.
  apply (trackerBlockingData_needs_protections (I := sampleImports)).
  eexists. reflexivity.
Defined.

Lemma gate_open_unless_upgradedHttps_not_boolean_witness :
  ready (fields (act_all (I := sampleImports)
    [ADeliver (ParentEntity VNull); AGetBackgroundTabData;
     ADeliver (UpgradedHttps (VBool true))] sampleReady)) = true
  ∧ ready (fields (act (I := sampleImports)
      (ADeliver (UpgradedHttps VUndefined)) sampleReady)) = false.
Proof.
  destruct (gate_open_unless_upgradedHttps_not_boolean (I := sampleImports) sampleReady)
    as [Hone Hall]; [reflexivity|].
  split.
  - apply Hall. reflexivity.
  - apply (Hone (ADeliver (UpgradedHttps VUndefined))).
Defined.


Lemma second_request_orphans_the_first_witness :
  let w1 := exec privacyDashboardGetToggleReportOptions (initialWorld sampleWindow) in
  let w2 := exec privacyDashboardGetToggleReportOptions w1 in
  let w3 := foldl (λ w d, exec (onGetToggleReportOptionsResponse_call d) w) w2
              [VStr "first"; VStr "second"] in
  promises w3 !! 0 = Some Pending
  ∧ promises w3 !! 1 = Some (Fulfilled (VStr "first")).
Proof.
  intros w1 w2 w3.
  destruct (second_request_orphans_the_first (initialWorld sampleWindow)
              [VStr "first"; VStr "second"] eq_refl) as (_ & _ & H1 & H2).
  split; [exact H1|exact H2].
Defined.

Lemma fetch_posts_exactly_one_witness :
  let w1 := exec (fetch FetchToggleReportOptions) (initialWorld sampleWindow) in
  let w2 := exec (onGetToggleReportOptionsResponse_call (VObj ∅)) w1 in
  posted (window w1) = [("privacyDashboardGetToggleReportOptions", VObj ∅)]
  ∧ result (fetch FetchToggleReportOptions) (initialWorld sampleWindow)
    = Return (FetchAwait 0)
  ∧ promises w2 !! 0 = Some (Fulfilled (VObj ∅))
  ∧ result (fetch_resume (I := sampleImports) (VObj ∅)) w2 = Return (VObj ∅).
Proof.
  intros w1 w2.
  destruct (fetch_posts_exactly_one (I := sampleImports) FetchToggleReportOptions
              "privacyDashboardGetToggleReportOptions"
              (initialWorld sampleWindow) eq_refl eq_refl)
    as (Hposted & _ & _ & Hawait & _ & _ & Hreply).
  destruct (Hreply (VObj ∅)) as (Hfulfilled & _ & Hparsed).
  split; [exact Hposted|]. split; [exact Hawait|].
  split; [exact Hfulfilled|exact Hparsed].
Defined.

Lemma fetch_without_transport_witness :
  fetch (CloseMessage VNull) (initialWorld sampleWindow)
  = (Throw (TypeError "Cannot read properties of undefined (reading 'postMessage')"),
     initialWorld sampleWindow)
  ∧ fetch (CloseMessage VNull) (initialWorld bareWindow)
    = (Throw (Error "Invariant failed: webkit.messageHandlers required"),
       initialWorld bareWindow).
Proof.
  split.
  - apply (fetch_without_transport (CloseMessage VNull) "privacyDashboardClose"
             (initialWorld sampleWindow) eq_refl eq_refl).
  - apply (fetch_without_transport (CloseMessage VNull) "privacyDashboardClose"
             (initialWorld bareWindow) eq_refl eq_refl).
Defined.

Lemma setLists_without_handler_witness :
  result (fetch (SetListsMessage
            [mkListItem "denylisted" (VBool true); mkListItem "allowlisted" (VBool true)]
            VNull)) (initialWorld bareWindow)
  = Throw (Error "Invariant failed: webkit.messageHandlers.privacyDashboardSetProtection required").
Proof.
  apply (setLists_without_handler
           [mkListItem "denylisted" (VBool true); mkListItem "allowlisted" (VBool true)]
           VNull (initialWorld bareWindow) eq_refl).
Defined.

Lemma waiters_resolved_in_order_witness :
  let w := deliver_all (I := sampleImports)
             [ProtectionStatus sampleProtections; Locale sampleLocale;
              UpgradedHttps (VBool false)] (initialWorld sampleWindow) in
  let w1 := act_all (I := sampleImports) (replicate 2 AGetBackgroundTabData) w in
  let w2 := exec (deliver (I := sampleImports)
                    (RequestData sampleUrl sampleRequestData)) w1 in
  resolveCalls w2
  = [(0, VObj (combineSources (fields w2))); (1, VObj (combineSources (fields w2)))].
Proof.
  intros w w1 w2.
  destruct (waiters_resolved_in_order (I := sampleImports) 2
              (RequestData sampleUrl sampleRequestData) w) as [_ H];
    [reflexivity|reflexivity|reflexivity|].
  exact H.
Defined.

Lemma no_flush_without_locale_witness :
  promises (deliver_all (I := sampleImports)
    [UpgradedHttps (VBool false); ProtectionStatus sampleProtections;
     RequestData sampleUrl sampleRequestData]
    (exec getBackgroundTabData (initialWorld sampleWindow)))
  = [Pending].
Proof.
  destruct (no_flush_without_locale (I := sampleImports)
    [UpgradedHttps (VBool false); ProtectionStatus sampleProtections;
     RequestData sampleUrl sampleRequestData]
    (exec getBackgroundTabData (initialWorld sampleWindow))) as (_ & H & _).
  - reflexivity.
  - repeat apply Forall_cons_2; [..|apply Forall_nil_2];
      intros payload Heq; discriminate Heq.
  - exact H.
Defined.

Lemma outgoing_leaves_the_aggregator_alone_witness :
  fields (act_all (I := sampleImports)
    [AFetch (CloseMessage VNull); AFetch FetchToggleReportOptions;
     AOpenUrl (VStr "https://example.com"); AFirstRender false (VNum 400)]
    sampleReady)
  = fields sampleReady.
Proof.
  apply (outgoing_leaves_the_aggregator_alone (I := sampleImports)). reflexivity.
Defined.

Lemma set_fields_stay_set_witness :
  is_Some (trackerBlockingData (fields (act_all (I := sampleImports)
    [ADeliver (UpgradedHttps VUndefined); ADeliver (RequestData sampleUrl VNull);
     AFetch OtherMessage] sampleTracked))).
Proof.
  apply (set_fields_stay_set (I := sampleImports)). eexists. reflexivity.
Defined.

Lemma snapshot_lookup_witness :
  snapshot_tab (combineSources (fields sampleTracked)) !! "domain"
  = default ∅ (trackerBlockingData (fields sampleTracked)) !! "domain".
Proof.
  apply (snapshot_lookup (fields sampleTracked)).
  intros H. repeat (apply elem_of_cons in H as [H|H]; [discriminate H|]).
  inversion H.
Defined.

Lemma certificateData_needs_an_object_witness :
  certificateData (fields (exec (onChangeCertificateData (VObj ∅)) sampleTracked))
  = VUndefined
  ∧ result (onChangeCertificateData VNull) sampleTracked
    = Throw (TypeError "Cannot read properties of null (reading 'secCertificateViewModels')").
Proof.
  destruct (certificateData_needs_an_object sampleTracked) as (_ & _ & Hnull & _ & H).
  split; [|exact Hnull]. apply (H ∅). reflexivity.
Defined.
